(** * GPS trip compliance and unscheduled-stop detection

    A shallow embedding of the geometry code of the fleet application:

    - [server/route-compliance.ts]: [toRadians], [haversineDistance],
      [interpolateRoute], [pointToLineSegmentDistance],
      [calculateRouteCompliance];
    - [client/src/components/route-confrontation-map.tsx]:
      [calculateDistance], [detectUnscheduledStops],
      [interpolatePlannedRoute].

    A JavaScript [number] is an IEEE-754 binary64 value.  Two readings of it
    are used below.

    - The functions that call [Math.sin], [Math.cos] and [Math.atan2] are
      embedded over the real numbers [R]: these library functions are only
      specified up to an implementation-defined approximation, so the
      embedding takes their exact mathematical values, and every other
      operation is exact as well.  [Infinity], which the compliance loop uses
      as the initial minimum, is kept as a separate constructor ([xnumber]).
    - [interpolateRoute] uses only [+], [-], [*] and [/], which IEEE-754
      defines bit for bit.  Module [Double] embeds it a second time over the
      primitive binary64 floats, where it can be evaluated, to see which of
      its properties survive rounding. *)

From Stdlib Require Import Reals Lra Lia ZArith List Bool Zfloor Machin.
From Stdlib Require Uint63 Floats.
From Stdlib Require Import Permutation.
Import ListNotations.

(** ** JavaScript primitives over the reals *)

Module JS.
Local Open Scope R_scope.

(** A parameter with a default value: [None] is an omitted ([undefined])
    argument. *)
Definition orDefault {A : Type} (arg : option A) (dflt : A) : A :=
  match arg with
  | Some v => v
  | None => dflt
  end.

(** [Math.round]: the nearest integer, a tie going to the larger one. *)
Definition Math_round (x : R) : R := IZR (Zfloor (x + / 2)).

Definition Math_max (x y : R) : R := Rmax x y.
Definition Math_min (x y : R) : R := Rmin x y.
Definition Math_sqrt (x : R) : R := sqrt x.
Definition Math_sin (x : R) : R := sin x.
Definition Math_cos (x : R) : R := cos x.
Definition Math_PI : R := PI.

(** [Math.atan2 y x]: the angle of the point [(x, y)], in [(-PI, PI]]. *)
Definition Math_atan2 (y x : R) : R :=
  if Rlt_dec 0 x then atan (y / x)
  else if Rlt_dec x 0 then
    (if Rle_dec 0 y then atan (y / x) + PI else atan (y / x) - PI)
  else if Rlt_dec 0 y then PI / 2
  else if Rlt_dec y 0 then - (PI / 2)
  else 0.

(** Numbers that may be [Infinity]. *)
Inductive xnumber : Type :=
| Finite (x : R)
| Infinity.

Definition xmin (a b : xnumber) : xnumber :=
  match a, b with
  | Finite x, Finite y => Finite (Math_min x y)
  | Finite x, Infinity => Finite x
  | Infinity, _ => b
  end.

Definition xmax (a b : xnumber) : xnumber :=
  match a, b with
  | Finite x, Finite y => Finite (Math_max x y)
  | _, _ => Infinity
  end.

Definition xadd (a b : xnumber) : xnumber :=
  match a, b with
  | Finite x, Finite y => Finite (x + y)
  | _, _ => Infinity
  end.

(** [a <= b] as the test of an [if]. *)
Definition xle (a : xnumber) (b : R) : bool :=
  match a with
  | Finite x => if Rle_dec x b then true else false
  | Infinity => false
  end.

(** [a / n] for a positive count [n]. *)
Definition xdiv (a : xnumber) (n : R) : xnumber :=
  match a with
  | Finite x => Finite (x / n)
  | Infinity => Infinity
  end.

Definition xround (a : xnumber) : xnumber :=
  match a with
  | Finite x => Finite (Math_round x)
  | Infinity => Infinity
  end.

(** [0 <= a], which [Infinity] satisfies. *)
Definition xnonneg (a : xnumber) : Prop :=
  match a with
  | Finite x => 0 <= x
  | Infinity => True
  end.

(** Truthiness of an optional number ([number | null | undefined]): [null],
    [undefined] and [0] are falsy. *)
Definition truthy (v : option R) : bool :=
  match v with
  | Some x => if Req_dec_T x 0 then false else true
  | None => false
  end.

End JS.

(** ** server/route-compliance.ts *)

Module RouteCompliance.
Import JS.
Local Open Scope R_scope.

Record Coordinate : Type := mkCoordinate { lat : R; lng : R }.

Definition toRadians (degrees : R) : R := degrees * (Math_PI / 180).

Definition haversineDistance (coord1 coord2 : Coordinate) : R :=
  let R_ := 6371000 in
  let lat1 := toRadians (lat coord1) in
  let lat2 := toRadians (lat coord2) in
  let deltaLat := toRadians (lat coord2 - lat coord1) in
  let deltaLng := toRadians (lng coord2 - lng coord1) in
  let a := Math_sin (deltaLat / 2) * Math_sin (deltaLat / 2) +
           Math_cos lat1 * Math_cos lat2 *
           Math_sin (deltaLng / 2) * Math_sin (deltaLng / 2) in
  let c := 2 * Math_atan2 (Math_sqrt a) (Math_sqrt (1 - a)) in
  R_ * c.

(** The haversine term [a] of [haversineDistance], named for the proofs. *)
Definition haversineTerm (lat1 lng1 lat2 lng2 : R) : R :=
  sin (toRadians (lat2 - lat1) / 2) * sin (toRadians (lat2 - lat1) / 2) +
  cos (toRadians lat1) * cos (toRadians lat2) *
  sin (toRadians (lng2 - lng1) / 2) * sin (toRadians (lng2 - lng1) / 2).

(** The loop counter [i] of [for (let i = 0; i <= numPoints; i++)], for an
    integer [numPoints]: [0, 1, ..., numPoints], and nothing when
    [numPoints] is negative. *)
Definition loopIndices (numPoints : Z) : list Z :=
  map Z.of_nat (seq 0 (Z.to_nat (numPoints + 1))).

(** [numPoints] defaults to 10.  With [numPoints = 0] the code divides zero
    by zero and pushes one coordinate of [NaN]s; the embedding is meant for
    [numPoints >= 1]. *)
Definition interpolateRoute (start end_ : Coordinate) (numPoints : option Z)
  : list Coordinate :=
  let numPoints := orDefault numPoints 10%Z in
  map (fun i =>
         let t := IZR i / IZR numPoints in
         {| lat := lat start + t * (lat end_ - lat start);
            lng := lng start + t * (lng end_ - lng start) |})
      (loopIndices numPoints).

(** The clamped projection parameter [t] of [pointToLineSegmentDistance]. *)
Definition projectionParameter (point lineStart lineEnd : Coordinate) : R :=
  let lineLat := lat lineEnd - lat lineStart in
  let lineLng := lng lineEnd - lng lineStart in
  let lineLength := Math_sqrt (lineLat * lineLat + lineLng * lineLng) in
  Math_max 0 (Math_min 1
    (((lat point - lat lineStart) * lineLat +
      (lng point - lng lineStart) * lineLng) / (lineLength * lineLength))).

Definition pointToLineSegmentDistance (point lineStart lineEnd : Coordinate)
  : R :=
  let lineLat := lat lineEnd - lat lineStart in
  let lineLng := lng lineEnd - lng lineStart in
  let lineLength := Math_sqrt (lineLat * lineLat + lineLng * lineLng) in
  if Req_dec_T lineLength 0 then haversineDistance point lineStart
  else
    let t := projectionParameter point lineStart lineEnd in
    let projection := {| lat := lat lineStart + t * lineLat;
                         lng := lng lineStart + t * lineLng |} in
    haversineDistance point projection.

(** The point of the segment at parameter [t]: the [projection] of
    [pointToLineSegmentDistance]. *)
Definition pointOnSegment (lineStart lineEnd : Coordinate) (t : R)
  : Coordinate :=
  {| lat := lat lineStart + t * (lat lineEnd - lat lineStart);
     lng := lng lineStart + t * (lng lineEnd - lng lineStart) |}.

(** The squared distance in the latitude-longitude plane, in which the
    projection is taken. *)
Definition planarSquaredDistance (p q : Coordinate) : R :=
  (lat p - lat q) * (lat p - lat q) + (lng p - lng q) * (lng p - lng q).

Record ComplianceResult : Type := mkComplianceResult {
  compliancePercent : R;
  maxDeviation : xnumber;
  averageDeviation : xnumber
}.

(** The pairs [(expectedRoute[i], expectedRoute[i + 1])] for
    [0 <= i < expectedRoute.length - 1]. *)
Definition segments (expectedRoute : list Coordinate)
  : list (Coordinate * Coordinate) :=
  combine expectedRoute (tl expectedRoute).

(** The inner loop: [minDistance] after all segments, from [Infinity]. *)
Definition minDistanceToRoute (expectedRoute : list Coordinate)
    (actualPoint : Coordinate) : xnumber :=
  fold_left
    (fun minDistance seg =>
       let distance :=
         pointToLineSegmentDistance actualPoint (fst seg) (snd seg) in
       xmin minDistance (Finite distance))
    (segments expectedRoute) Infinity.

(** The three accumulators of the outer loop. *)
Record Tally : Type := mkTally {
  compliantPoints : nat;
  totalDeviation : xnumber;
  maxDeviationSoFar : xnumber
}.

Definition tallyPoint (expectedRoute : list Coordinate) (toleranceMeters : R)
    (acc : Tally) (actualPoint : Coordinate) : Tally :=
  let minDistance := minDistanceToRoute expectedRoute actualPoint in
  {| compliantPoints :=
       if xle minDistance toleranceMeters
       then S (compliantPoints acc) else compliantPoints acc;
     totalDeviation := xadd (totalDeviation acc) minDistance;
     maxDeviationSoFar := xmax (maxDeviationSoFar acc) minDistance |}.

Definition tallyPath (expectedRoute : list Coordinate) (toleranceMeters : R)
    (actualPath : list Coordinate) : Tally :=
  fold_left (tallyPoint expectedRoute toleranceMeters) actualPath
    {| compliantPoints := 0;
       totalDeviation := Finite 0;
       maxDeviationSoFar := Finite 0 |}.

(** [toleranceMeters] defaults to 500. *)
Definition calculateRouteCompliance (actualPath : list Coordinate)
    (expectedStart expectedEnd : Coordinate) (toleranceMeters : option R)
  : ComplianceResult :=
  let toleranceMeters := orDefault toleranceMeters 500 in
  match actualPath with
  | [] => {| compliancePercent := 100;
             maxDeviation := Finite 0;
             averageDeviation := Finite 0 |}
  | _ :: _ =>
    let expectedRoute := interpolateRoute expectedStart expectedEnd (Some 20%Z) in
    let acc := tallyPath expectedRoute toleranceMeters actualPath in
    let length := INR (length actualPath) in
    let compliancePercent := (INR (compliantPoints acc) / length) * 100 in
    let averageDeviation := xdiv (totalDeviation acc) length in
    {| compliancePercent := Math_round (compliancePercent * 10) / 10;
       maxDeviation := xround (maxDeviationSoFar acc);
       averageDeviation := xround averageDeviation |}
  end.

(** [calculateTotalDistance]: the loop adds the distance of every pair
    [(path[i - 1], path[i])]. *)
Definition calculateTotalDistance (path : list Coordinate) : R :=
  if (length path <? 2)%nat then 0
  else
    let total :=
      fold_left
        (fun total seg => total + haversineDistance (fst seg) (snd seg))
        (segments path) 0 in
    Math_round total.

End RouteCompliance.

(** ** client/src/components/route-confrontation-map.tsx *)

Module RouteConfrontationMap.
Import JS.
Local Open Scope R_scope.

(** A row of [gps_route_points]: the fields the detector reads.  [timestamp]
    is [new Date(p.timestamp).getTime()], milliseconds since the epoch. *)
Record GpsRoutePoint : Type := mkGpsRoutePoint {
  latitude : R;
  longitude : R;
  timestamp : Z
}.

(** [startTime] is a [Date], kept as its milliseconds; the optional
    [address] is never set by the detector.  The fields [latitude] and
    [longitude] carry the prefix [stop], the names being taken by
    [GpsRoutePoint]. *)
Record UnscheduledStop : Type := mkUnscheduledStop {
  stopLatitude : R;
  stopLongitude : R;
  startTime : Z;
  duration : R
}.

Definition calculateDistance (lat1 lng1 lat2 lng2 : R) : R :=
  let R_ := 6371000 in
  let rad := Math_PI / 180 in
  let dLat := (lat2 - lat1) * rad in
  let dLng := (lng2 - lng1) * rad in
  let a := Math_sin (dLat / 2) ^ 2 +
           Math_cos (lat1 * rad) * Math_cos (lat2 * rad) *
           Math_sin (dLng / 2) ^ 2 in
  R_ * 2 * Math_atan2 (Math_sqrt a) (Math_sqrt (1 - a)).

(** The variables the loop of [detectUnscheduledStops] updates. *)
Record Detector : Type := mkDetector {
  stops : list UnscheduledStop;
  stopStart : option GpsRoutePoint;
  stopPoints : list GpsRoutePoint
}.

(** [destinationLat && destinationLng && calculateDistance(...) < 200], as
    the test of [if (!isAtDestination)]. *)
Definition isAtDestination (destinationLat destinationLng : option R)
    (first : GpsRoutePoint) : bool :=
  truthy destinationLat && truthy destinationLng &&
  match destinationLat, destinationLng with
  | Some dLat, Some dLng =>
    if Rlt_dec (calculateDistance (latitude first) (longitude first)
                  dLat dLng) 200
    then true else false
  | _, _ => false
  end.

(** The block that closes a run.  The source has it twice, in the [else]
    branch of the loop and after the loop; it returns the new [stops]. *)
Definition closeRun (destinationLat destinationLng : option R)
    (stopThresholdMinutes : R) (st : Detector) : list UnscheduledStop :=
  match stopStart st with
  | Some first =>
    if (1 <? length (stopPoints st))%nat then
      let lastPoint := last (stopPoints st) first in
      let duration :=
        IZR (timestamp lastPoint - timestamp first) / 60000 in
      if Rge_dec duration stopThresholdMinutes then
        if negb (isAtDestination destinationLat destinationLng first) then
          stops st ++ [ {| stopLatitude := latitude first;
                           stopLongitude := longitude first;
                           startTime := timestamp first;
                           duration := Math_round duration |} ]
        else stops st
      else stops st
    else stops st
  | None => stops st
  end.

(** One iteration of the loop, on [prev = gpsPoints[i - 1]] and
    [curr = gpsPoints[i]]. *)
Definition visitPair (destinationLat destinationLng : option R)
    (stopThresholdMinutes distanceThresholdMeters : R)
    (st : Detector) (pair : GpsRoutePoint * GpsRoutePoint) : Detector :=
  let (prev, curr) := pair in
  let distance := calculateDistance (latitude prev) (longitude prev)
                    (latitude curr) (longitude curr) in
  if Rlt_dec distance distanceThresholdMeters then
    match stopStart st with
    | None =>
      {| stops := stops st;
         stopStart := Some prev;
         stopPoints := [prev] ++ [curr] |}
    | Some _ =>
      {| stops := stops st;
         stopStart := stopStart st;
         stopPoints := stopPoints st ++ [curr] |}
    end
  else
    {| stops := closeRun destinationLat destinationLng
                  stopThresholdMinutes st;
       stopStart := None;
       stopPoints := [] |}.

(** The pairs [(gpsPoints[i - 1], gpsPoints[i])] for
    [1 <= i < gpsPoints.length]. *)
Definition consecutivePairs (gpsPoints : list GpsRoutePoint)
  : list (GpsRoutePoint * GpsRoutePoint) :=
  combine gpsPoints (tl gpsPoints).

(** [stopThresholdMinutes] defaults to 10 and [distanceThresholdMeters] to
    100; a destination coordinate is a number, [null] or [undefined]. *)
Definition detectUnscheduledStops (gpsPoints : list GpsRoutePoint)
    (destinationLat destinationLng : option R)
    (stopThresholdMinutes distanceThresholdMeters : option R)
  : list UnscheduledStop :=
  let stopThresholdMinutes := orDefault stopThresholdMinutes 10 in
  let distanceThresholdMeters := orDefault distanceThresholdMeters 100 in
  if (length gpsPoints <? 2)%nat then []
  else
    let st :=
      fold_left
        (visitPair destinationLat destinationLng
           stopThresholdMinutes distanceThresholdMeters)
        (consecutivePairs gpsPoints)
        {| stops := []; stopStart := None; stopPoints := [] |} in
    closeRun destinationLat destinationLng stopThresholdMinutes st.

(** The test [distance < distanceThresholdMeters] of the loop, on a pair. *)
Definition near (distanceThresholdMeters : R)
    (pair : GpsRoutePoint * GpsRoutePoint) : Prop :=
  calculateDistance (latitude (fst pair)) (longitude (fst pair))
    (latitude (snd pair)) (longitude (snd pair)) < distanceThresholdMeters.

(** How a run whose last sample is [lastOfRun] can end: with the track, or
    with one more sample that is not near it. *)
Definition runEnds (distanceThresholdMeters : R) (lastOfRun : GpsRoutePoint)
    (tail : list GpsRoutePoint) : Prop :=
  tail = [] \/
  exists jump, tail = [jump] /\
               ~ near distanceThresholdMeters (lastOfRun, jump).

(** [numPoints] defaults to 20. *)
Definition interpolatePlannedRoute (startLat startLng endLat endLng : R)
    (numPoints : option Z) : list (R * R) :=
  let numPoints := orDefault numPoints 20%Z in
  map (fun i =>
         let t := IZR i / IZR numPoints in
         (startLat + t * (endLat - startLat),
          startLng + t * (endLng - startLng)))
      (RouteCompliance.loopIndices numPoints).

End RouteConfrontationMap.

(** ** [interpolateRoute] on binary64 floats *)

Module Double.
Import Uint63 Floats.
Import JS.
Local Open Scope float_scope.
Local Set Warnings "-inexact-float".

Record Coordinate : Type := mkCoordinate { lat : float; lng : float }.

(** The loop counter and [numPoints] as a [number]: the binary64 value
    nearest to the integer, ties to even; exact up to [2^53], and [Infinity]
    from [2^1024] on. *)
Definition ofIndex (i : Z) : float :=
  SF2Prim (binary_normalize prec emax i 0 false).

Definition interpolateRoute (start end_ : Coordinate) (numPoints : option Z)
  : list Coordinate :=
  let numPoints := orDefault numPoints 10%Z in
  map (fun i =>
         let t := ofIndex i / ofIndex numPoints in
         {| lat := lat start + t * (lat end_ - lat start);
            lng := lng start + t * (lng end_ - lng start) |})
      (RouteCompliance.loopIndices numPoints).






End Double.

(** ** The handler of [POST /api/trips/:id/end]

    The computations of the handler between reading the trip and storing it:
    the odometer arithmetic, the path taken from the trip's events, and the
    test that decides whether [calculateRouteCompliance] is called. *)

Module TripEnd.
Import JS RouteCompliance.
Local Open Scope R_scope.

(** A row of [trip_events]: its two nullable coordinates. *)
Record TripEvent : Type := mkTripEvent {
  eventLatitude : option R;
  eventLongitude : option R
}.

(** A row of [jobs]: its four nullable coordinates. *)
Record Job : Type := mkJob {
  pickupLat : option R;
  pickupLng : option R;
  deliveryLat : option R;
  deliveryLng : option R
}.

(** [x!] on a nullable number that the code has tested to be truthy. *)
Definition nonNull (x : option R) : R := orDefault x 0.

(** [events.filter(e => e.latitude && e.longitude)
          .map(e => ({ lat: e.latitude!, lng: e.longitude! }))]. *)
Definition actualPathOf (events : list TripEvent) : list Coordinate :=
  map (fun e => {| lat := nonNull (eventLatitude e);
                   lng := nonNull (eventLongitude e) |})
      (filter (fun e => truthy (eventLatitude e) && truthy (eventLongitude e))
              events).

(** The value of [routeCompliance] when the trip is stored: the default,
    replaced by [calculateRouteCompliance] when there is a job with four
    truthy coordinates and the path is not empty. *)
Definition routeComplianceAtEnd (job : option Job) (events : list TripEvent)
  : ComplianceResult :=
  let actualPath := actualPathOf events in
  let routeCompliance := {| compliancePercent := 100;
                            maxDeviation := Finite 0;
                            averageDeviation := Finite 0 |} in
  match job with
  | Some job =>
    if truthy (pickupLat job) && truthy (pickupLng job) &&
       truthy (deliveryLat job) && truthy (deliveryLng job) &&
       (0 <? length actualPath)%nat
    then calculateRouteCompliance actualPath
           {| lat := nonNull (pickupLat job); lng := nonNull (pickupLng job) |}
           {| lat := nonNull (deliveryLat job);
              lng := nonNull (deliveryLng job) |}
           None
    else routeCompliance
  | None => routeCompliance
  end.

(** The odometer figures stored with the trip. *)
Record TripFigures : Type := mkTripFigures {
  distanceTravelled : R;
  fuelUsed : R;
  fuelEfficiency : R
}.

(** [startOdometer = trip.startOdometer || 0], then the three figures. *)
Definition tripFigures (tripStartOdometer : option R) (endOdometer : R)
  : TripFigures :=
  let startOdometer :=
    if truthy tripStartOdometer then nonNull tripStartOdometer else 0 in
  let distance := endOdometer - startOdometer in
  let fuelUsed := distance * (8 / 100) in
  let fuelEfficiency :=
    if Rgt_dec fuelUsed 0 then distance / fuelUsed else 0 in
  {| distanceTravelled := distance;
     fuelUsed := fuelUsed;
     fuelEfficiency := fuelEfficiency |}.

End TripEnd.

(** ** The values the [RouteConfrontationMap] component derives from its
    props *)

Module RouteView.
Import JS RouteConfrontationMap.
Local Open Scope R_scope.

(** [hasPlannedRoute]: the four coordinates of the trip's job are truthy
    ([trip.job?.x] is [undefined] when the trip has no job). *)
Definition hasPlannedRoute (job : option TripEnd.Job) : bool :=
  match job with
  | Some job =>
    truthy (TripEnd.pickupLat job) && truthy (TripEnd.pickupLng job) &&
    truthy (TripEnd.deliveryLat job) && truthy (TripEnd.deliveryLng job)
  | None => false
  end.

Definition plannedRoute (job : option TripEnd.Job) : list (R * R) :=
  match job with
  | Some j =>
    if hasPlannedRoute job
    then interpolatePlannedRoute
           (TripEnd.nonNull (TripEnd.pickupLat j))
           (TripEnd.nonNull (TripEnd.pickupLng j))
           (TripEnd.nonNull (TripEnd.deliveryLat j))
           (TripEnd.nonNull (TripEnd.deliveryLng j)) None
    else []
  | None => []
  end.

Definition actualRoute (gpsPoints : list GpsRoutePoint) : list (R * R) :=
  map (fun p => (latitude p, longitude p)) gpsPoints.

(** [trip.routeCompliancePercent ?? 100]: only [null] and [undefined] take
    the default. *)
Definition routeCompliance (routeCompliancePercent : option R) : R :=
  match routeCompliancePercent with
  | Some percent => percent
  | None => 100
  end.


(** The stops of the component: the detector with the job's delivery as the
    destination and the default thresholds. *)
Definition unscheduledStops (job : option TripEnd.Job)
    (gpsPoints : list GpsRoutePoint) : list UnscheduledStop :=
  detectUnscheduledStops gpsPoints
    (match job with Some j => TripEnd.deliveryLat j | None => None end)
    (match job with Some j => TripEnd.deliveryLng j | None => None end)
    None None.

End RouteView.

(** ** Sample tracks *)

Module Examples.
Import JS RouteConfrontationMap.
Local Open Scope R_scope.

(** A sample at latitude [latE4 / 10000] degrees, taken [minute] minutes
    after the start of the trip. *)
Definition sample (latE4 : Z) (lng : R) (minute : Z) : GpsRoutePoint :=
  {| latitude := IZR latE4 / 10000;
     longitude := lng;
     timestamp := minute * 60000 |}.

(** Three samples five minutes apart within some 33 m of each other (one
    ten-thousandth of a degree of latitude is about 11 m), then a jump of
    0.009 degrees, about 1 km. *)
Definition boundaryTrack : list GpsRoutePoint :=
  [ sample 100000 20 0; sample 100003 20 5; sample 100001 20 10;
    sample 100091 20 15 ].

(** The same with the third sample one minute earlier: a 9-minute run. *)
Definition shortTrack : list GpsRoutePoint :=
  [ sample 100000 20 0; sample 100003 20 5; sample 100001 20 9;
    sample 100091 20 15 ].

(** Four samples spanning 15 minutes within some 33 m of each other, on the
    meridian [lng]. *)
Definition dwellTrack (lng : R) : list GpsRoutePoint :=
  [ sample 100000 lng 0; sample 100003 lng 5; sample 100001 lng 10;
    sample 100002 lng 15 ].

(** A destination 0.001 degrees (about 111 m) north of the first sample of
    [dwellTrack], and one 0.009 degrees (about 1 km) north of it. *)
Definition nearLat : R := 10001 / 1000.
Definition farLat : R := 10009 / 1000.

(** The stop the detector reports for a run that starts at [first]. *)
Definition stopAt (first : GpsRoutePoint) (minutes : R) : UnscheduledStop :=
  {| stopLatitude := latitude first;
     stopLongitude := longitude first;
     startTime := timestamp first;
     duration := minutes |}.

End Examples.

(** ** Paths along a meridian *)

Module Meridians.
Import RouteCompliance.
Local Open Scope R_scope.


End Meridians.

(** ** What a reported stop stands for *)

Module StopReport.
Import JS RouteConfrontationMap Examples.
Local Open Scope R_scope.

(** [stop] reports a run of the track [gpsPoints]: it starts at a sample
    [first] of the track, the run's last sample [lastOfRun] is a sample of
    the track, the minutes between the two reach the threshold, and [first]
    does not pass the destination test. *)
Definition reports (gpsPoints : list GpsRoutePoint)
    (destinationLat destinationLng : option R) (stopThresholdMinutes : R)
    (stop : UnscheduledStop) : Prop :=
  exists first lastOfRun,
    In first gpsPoints /\ In lastOfRun gpsPoints /\
    IZR (timestamp lastOfRun - timestamp first) / 60000
      >= stopThresholdMinutes /\
    isAtDestination destinationLat destinationLng first = false /\
    stop = stopAt first
             (Math_round
                (IZR (timestamp lastOfRun - timestamp first) / 60000)).

(** The state of the loop speaks of samples of the track only. *)
Definition speaksOfTrack (gpsPoints : list GpsRoutePoint)
    (destinationLat destinationLng : option R) (stopThresholdMinutes : R)
    (st : Detector) : Prop :=
  Forall (reports gpsPoints destinationLat destinationLng
            stopThresholdMinutes) (stops st) /\
  (forall first, stopStart st = Some first -> In first gpsPoints) /\
  (forall p, In p (stopPoints st) -> In p gpsPoints).

(** The number of runs a detector state has started: two for each stop found
    and one for an open run. *)
Definition runsStarted (st : Detector) : nat :=
  2 * length (stops st) +
  match stopStart st with Some _ => 1 | None => 0 end.

End StopReport.

(** * Properties *)

(** ** The numeric primitives *)

Section Primitives.
Import JS.
Local Open Scope R_scope.

Lemma Math_round_integer (z : Z) : Math_round (IZR z) = IZR z.
Proof.
  unfold Math_round. f_equal. apply Zfloor_eq. lra.
Qed.

(** A tie goes up: [Math.round(2.5)] is 3 and [Math.round(-2.5)] is -2. *)
Example Math_round_half_up : Math_round (5 / 2) = 3.
Proof. unfold Math_round. f_equal. apply Zfloor_eq. lra. Qed.

Example Math_round_negative_half : Math_round (- 5 / 2) = -2.
Proof. unfold Math_round. f_equal. apply Zfloor_eq. lra. Qed.

Lemma Math_atan2_zero_pos (x : R) : 0 < x -> Math_atan2 0 x = 0.
Proof.
  intros Hx. unfold Math_atan2.
  destruct (Rlt_dec 0 x) as [_ | Hn]; [ | contradiction ].
  unfold Rdiv. rewrite Rmult_0_l. exact atan_0.
Qed.

(** The values of [Math.atan2] on the axes and on the diagonal. *)
Example Math_atan2_axes :
  Math_atan2 1 0 = PI / 2 /\ Math_atan2 0 (-1) = PI /\
  Math_atan2 (-1) 0 = - (PI / 2) /\ Math_atan2 1 1 = PI / 4.
Proof.
  unfold Math_atan2. repeat split.
  - destruct (Rlt_dec 0 0); [ lra | ].
    destruct (Rlt_dec 0 1); [ reflexivity | lra ].
  - destruct (Rlt_dec 0 (-1)); [ lra | ].
    destruct (Rlt_dec (-1) 0); [ | lra ].
    destruct (Rle_dec 0 0); [ | lra ].
    replace (0 / -1) with 0 by field. rewrite atan_0. ring.
  - destruct (Rlt_dec 0 0); [ lra | ].
    destruct (Rlt_dec 0 (-1)); [ lra | ].
    destruct (Rlt_dec (-1) 0); [ reflexivity | lra ].
  - destruct (Rlt_dec 0 1); [ | lra ].
    replace (1 / 1) with 1 by field. exact atan_1.
Qed.

Lemma atan_nonneg (x : R) : 0 <= x -> 0 <= atan x.
Proof.
  intros [Hx | <-].
  - left. rewrite <- atan_0. now apply atan_increasing.
  - rewrite atan_0. lra.
Qed.

Lemma Math_atan2_nonneg (y x : R) : 0 <= y -> 0 <= x -> 0 <= Math_atan2 y x.
Proof.
  intros Hy Hx. unfold Math_atan2.
  destruct (Rlt_dec 0 x) as [Hpos | Hnpos].
  - apply atan_nonneg. apply Rle_mult_inv_pos; assumption.
  - destruct (Rlt_dec x 0) as [Hneg | _]; [ lra | ].
    destruct (Rlt_dec 0 y) as [_ | _].
    + pose proof PI2_RGT_0. lra.
    + destruct (Rlt_dec y 0) as [Hyneg | _]; lra.
Qed.

(** The angle of the point [(cos x, sin x)] in the first quadrant. *)
Lemma Math_atan2_sin_cos (x : R) :
  0 <= x < PI / 2 -> Math_atan2 (sin x) (cos x) = x.
Proof.
  intros [Hlo Hhi]. unfold Math_atan2.
  assert (Hcos : 0 < cos x) by (apply cos_gt_0; lra).
  destruct (Rlt_dec 0 (cos x)) as [_ | Hn]; [ | contradiction ].
  change (sin x / cos x) with (tan x). apply atan_tan. lra.
Qed.

End Primitives.

(** ** Great-circle distance *)

Section Haversine.
Import JS RouteCompliance.
Local Open Scope R_scope.

Lemma haversineDistance_term (p q : Coordinate) :
  haversineDistance p q =
  6371000 * (2 * Math_atan2 (sqrt (haversineTerm (lat p) (lng p) (lat q) (lng q)))
                            (sqrt (1 - haversineTerm (lat p) (lng p) (lat q) (lng q)))).
Proof. reflexivity. Qed.

Lemma toRadians_opp (x : R) : toRadians (- x) = - toRadians x.
Proof. unfold toRadians. ring. Qed.

Lemma haversineTerm_sym (lat1 lng1 lat2 lng2 : R) :
  haversineTerm lat1 lng1 lat2 lng2 = haversineTerm lat2 lng2 lat1 lng1.
Proof.
  unfold haversineTerm.
  replace (lat1 - lat2) with (- (lat2 - lat1)) by ring.
  replace (lng1 - lng2) with (- (lng2 - lng1)) by ring.
  rewrite !toRadians_opp.
  replace (- toRadians (lat2 - lat1) / 2)
    with (- (toRadians (lat2 - lat1) / 2)) by field.
  replace (- toRadians (lng2 - lng1) / 2)
    with (- (toRadians (lng2 - lng1) / 2)) by field.
  rewrite !sin_neg. ring.
Qed.

Lemma haversineTerm_same (lat1 lng1 : R) : haversineTerm lat1 lng1 lat1 lng1 = 0.
Proof.
  unfold haversineTerm, toRadians.
  replace ((lat1 - lat1) * (Math_PI / 180) / 2) with 0 by (unfold Rdiv; ring).
  replace ((lng1 - lng1) * (Math_PI / 180) / 2) with 0 by (unfold Rdiv; ring).
  rewrite sin_0. ring.
Qed.

(** The term lies in [[0, 1]], so neither square root of
    [haversineDistance] is taken of a negative number. *)
Lemma haversineTerm_range (lat1 lng1 lat2 lng2 : R) :
  0 <= haversineTerm lat1 lng1 lat2 lng2 <= 1.
Proof.
  unfold haversineTerm.
  set (p1 := toRadians lat1). set (p2 := toRadians lat2).
  set (dl := toRadians (lng2 - lng1)).
  replace (toRadians (lat2 - lat1)) with (p2 - p1)
    by (unfold p1, p2, toRadians; ring).
  assert (Hhalf : forall x, sin (x / 2) * sin (x / 2) = (1 - cos x) / 2).
  { intros x. pose proof (cos_2a_sin (x / 2)) as H.
    replace (2 * (x / 2)) with x in H by field. lra. }
  rewrite Hhalf.
  replace (cos p1 * cos p2 * sin (dl / 2) * sin (dl / 2))
    with (cos p1 * cos p2 * (sin (dl / 2) * sin (dl / 2))) by ring.
  rewrite Hhalf, cos_minus.
  pose proof (COS_bound dl) as [Hd1 Hd2].
  pose proof (COS_bound (p2 - p1)) as [Hm1 Hm2]. rewrite cos_minus in Hm1, Hm2.
  pose proof (COS_bound (p2 + p1)) as [Hp1 Hp2]. rewrite cos_plus in Hp1, Hp2.
  set (A := sin p2 * sin p1) in *. set (B := cos p2 * cos p1) in *.
  replace (cos p1 * cos p2) with B by (unfold B; ring).
  assert (Hlin : A + B * cos dl =
                 (1 + cos dl) / 2 * (B + A) + (1 - cos dl) / 2 * (A - B))
    by field.
  assert (Hu : (1 + cos dl) / 2 * (B + A) <= (1 + cos dl) / 2 * 1)
    by (apply Rmult_le_compat_l; lra).
  assert (Hl : (1 + cos dl) / 2 * (-1) <= (1 + cos dl) / 2 * (B + A))
    by (apply Rmult_le_compat_l; lra).
  assert (Hu' : (1 - cos dl) / 2 * (A - B) <= (1 - cos dl) / 2 * 1)
    by (apply Rmult_le_compat_l; lra).
  assert (Hl' : (1 - cos dl) / 2 * (-1) <= (1 - cos dl) / 2 * (A - B))
    by (apply Rmult_le_compat_l; lra).
  lra.
Qed.

Lemma haversineDistance_sym (p q : Coordinate) :
  haversineDistance p q = haversineDistance q p.
Proof.
  rewrite !haversineDistance_term.
  now rewrite (haversineTerm_sym (lat p) (lng p) (lat q) (lng q)).
Qed.

Lemma haversineDistance_same (p q : Coordinate) :
  lat p = lat q -> lng p = lng q -> haversineDistance p q = 0.
Proof.
  intros Hlat Hlng. rewrite haversineDistance_term, Hlat, Hlng.
  rewrite haversineTerm_same, Rminus_0_r, sqrt_0, sqrt_1.
  rewrite Math_atan2_zero_pos by lra. ring.
Qed.

Lemma haversineDistance_nonneg (p q : Coordinate) :
  0 <= haversineDistance p q.
Proof.
  rewrite haversineDistance_term.
  pose proof (Math_atan2_nonneg _ _
    (sqrt_pos (haversineTerm (lat p) (lng p) (lat q) (lng q)))
    (sqrt_pos (1 - haversineTerm (lat p) (lng p) (lat q) (lng q)))).
  lra.
Qed.

(** Two points on one meridian, the second to the north: the distance is the
    arc of the latitude difference. *)
Lemma haversineDistance_meridian (p q : Coordinate) :
  lng p = lng q -> 0 <= lat q - lat p < 180 ->
  haversineDistance p q = 6371000 * toRadians (lat q - lat p).
Proof.
  intros Hlng [Hlo Hhi]. rewrite haversineDistance_term.
  set (x := toRadians (lat q - lat p) / 2).
  assert (Hx : 0 <= x < PI / 2).
  { unfold x, toRadians, Math_PI. pose proof PI_RGT_0. split.
    - apply Rle_mult_inv_pos; [ | lra ].
      apply Rmult_le_pos; [ assumption | lra ].
    - assert (Hlt : (lat q - lat p) * (PI / 180) < 180 * (PI / 180)).
      { apply Rmult_lt_compat_r; lra. }
      lra. }
  assert (Hterm : haversineTerm (lat p) (lng p) (lat q) (lng q)
                  = sin x * sin x).
  { unfold haversineTerm. fold x. rewrite Hlng.
    replace (toRadians (lng q - lng q) / 2) with 0
      by (unfold toRadians, Rdiv; ring).
    rewrite sin_0. ring. }
  rewrite Hterm.
  assert (Hsin : 0 <= sin x) by (apply sin_ge_0; lra).
  assert (Hcos : 0 <= cos x) by (apply cos_ge_0; lra).
  replace (1 - sin x * sin x) with (cos x * cos x)
    by (pose proof (sin2_cos2 x) as H; unfold Rsqr in H; lra).
  rewrite !sqrt_square by assumption.
  rewrite Math_atan2_sin_cos by assumption.
  unfold x. field.
Qed.

Lemma calculateDistance_haversine (lat1 lng1 lat2 lng2 : R) :
  RouteConfrontationMap.calculateDistance lat1 lng1 lat2 lng2 =
  haversineDistance {| lat := lat1; lng := lng1 |}
                    {| lat := lat2; lng := lng2 |}.
Proof.
  rewrite haversineDistance_term. cbn [lat lng].
  unfold RouteConfrontationMap.calculateDistance, haversineTerm, toRadians,
    Math_sin, Math_cos, Math_sqrt.
  cbv zeta.
  replace (sin ((lat2 - lat1) * (Math_PI / 180) / 2) ^ 2)
    with (sin ((lat2 - lat1) * (Math_PI / 180) / 2) *
          sin ((lat2 - lat1) * (Math_PI / 180) / 2)) by ring.
  replace (cos (lat1 * (Math_PI / 180)) * cos (lat2 * (Math_PI / 180)) *
           sin ((lng2 - lng1) * (Math_PI / 180) / 2) ^ 2)
    with (cos (lat1 * (Math_PI / 180)) * cos (lat2 * (Math_PI / 180)) *
          sin ((lng2 - lng1) * (Math_PI / 180) / 2) *
          sin ((lng2 - lng1) * (Math_PI / 180) / 2)) by ring.
  ring.
Qed.

End Haversine.

(** ** The planned route *)

Section PlannedRoute.
Import JS RouteCompliance.
Local Open Scope R_scope.

Lemma loopIndices_length (n : Z) :
  length (loopIndices n) = Z.to_nat (n + 1).
Proof. unfold loopIndices. now rewrite length_map, length_seq. Qed.

Lemma loopIndices_nth (n i : Z) :
  (0 <= i <= n)%Z -> nth_error (loopIndices n) (Z.to_nat i) = Some i.
Proof.
  intros Hi. unfold loopIndices.
  rewrite nth_error_map, nth_error_seq.
  destruct (Nat.ltb_spec (Z.to_nat i) (Z.to_nat (n + 1))) as [_ | Hge];
    [ | lia ].
  cbn. f_equal. lia.
Qed.

Lemma interpolateRoute_length (start end_ : Coordinate) (n : Z) :
  length (interpolateRoute start end_ (Some n)) = Z.to_nat (n + 1).
Proof.
  unfold interpolateRoute. cbn [orDefault].
  now rewrite length_map, loopIndices_length.
Qed.

(** Waypoint [i] is the interpolation at [t = i / numPoints]. *)
Lemma interpolateRoute_nth (start end_ : Coordinate) (n i : Z) :
  (0 <= i <= n)%Z ->
  nth_error (interpolateRoute start end_ (Some n)) (Z.to_nat i) =
  Some {| lat := lat start + IZR i / IZR n * (lat end_ - lat start);
          lng := lng start + IZR i / IZR n * (lng end_ - lng start) |}.
Proof.
  intros Hi. unfold interpolateRoute. cbn [orDefault].
  now rewrite nth_error_map, loopIndices_nth.
Qed.

Lemma interpolateRoute_first (start end_ : Coordinate) (n : Z) :
  (1 <= n)%Z ->
  nth_error (interpolateRoute start end_ (Some n)) 0 = Some start.
Proof.
  intros Hn. change 0%nat with (Z.to_nat 0).
  rewrite interpolateRoute_nth by lia.
  destruct start as [la lo]. cbn [lat lng]. f_equal. f_equal; unfold Rdiv; ring.
Qed.

Lemma interpolateRoute_last (start end_ : Coordinate) (n : Z) :
  (1 <= n)%Z ->
  nth_error (interpolateRoute start end_ (Some n)) (Z.to_nat n) = Some end_.
Proof.
  intros Hn. rewrite interpolateRoute_nth by lia.
  assert (Hnz : IZR n <> 0) by (apply not_0_IZR; lia).
  destruct end_ as [la lo]. cbn [lat lng]. f_equal. f_equal; field; assumption.
Qed.

End PlannedRoute.

(** ** Distance to a segment *)

Section SegmentDistance.
Import JS RouteCompliance.
Local Open Scope R_scope.

Lemma clamp_bounds (u : R) : 0 <= Math_max 0 (Math_min 1 u) <= 1.
Proof.
  unfold Math_max, Math_min. split.
  - apply Rmax_l.
  - apply Rmax_lub; [ lra | apply Rmin_l ].
Qed.

Lemma clamp_inside (u : R) : 0 <= u <= 1 -> Math_max 0 (Math_min 1 u) = u.
Proof.
  intros [Hlo Hhi]. unfold Math_max, Math_min.
  rewrite Rmin_right by assumption. now apply Rmax_right.
Qed.

Lemma pointToLineSegmentDistance_degenerate (point s : Coordinate) :
  pointToLineSegmentDistance point s s = haversineDistance point s.
Proof.
  unfold pointToLineSegmentDistance, Math_sqrt.
  replace ((lat s - lat s) * (lat s - lat s) + (lng s - lng s) * (lng s - lng s))
    with 0 by ring.
  rewrite sqrt_0.
  destruct (Req_dec_T 0 0) as [_ | Hne]; [ reflexivity | now elim Hne ].
Qed.

Lemma pointToLineSegmentDistance_nonneg (point s e : Coordinate) :
  0 <= pointToLineSegmentDistance point s e.
Proof.
  unfold pointToLineSegmentDistance.
  destruct (Req_dec_T _ 0); apply haversineDistance_nonneg.
Qed.



End SegmentDistance.

(** ** Route compliance *)

Section Compliance.
Import JS RouteCompliance.
Local Open Scope R_scope.


Lemma fold_xmin_zero_acc (A : Type) (f : A -> R) (l : list A) :
  (forall s, 0 <= f s) ->
  fold_left (fun m s => xmin m (Finite (f s))) l (Finite 0) = Finite 0.
Proof.
  intros Hf. induction l as [ | s l IH ]; cbn [fold_left]; [ reflexivity | ].
  cbn [xmin]. unfold Math_min. rewrite Rmin_left by apply Hf. exact IH.
Qed.

Lemma fold_xmin_zero (A : Type) (f : A -> R) (l : list A) (acc : xnumber) :
  (forall s, 0 <= f s) -> xnonneg acc ->
  (exists s, In s l /\ f s = 0) ->
  fold_left (fun m s => xmin m (Finite (f s))) l acc = Finite 0.
Proof.
  intros Hf. revert acc.
  induction l as [ | s l IH ]; intros acc Hacc (s0 & Hin & Hzero).
  - destruct Hin.
  - cbn [fold_left]. destruct Hin as [-> | Hin].
    + rewrite Hzero.
      replace (xmin acc (Finite 0)) with (Finite 0).
      * now apply fold_xmin_zero_acc.
      * destruct acc as [x | ]; cbn [xmin xnonneg] in *; [ | reflexivity ].
        unfold Math_min. now rewrite Rmin_right.
    + apply IH; [ | now exists s0 ].
      destruct acc as [x | ]; cbn [xmin xnonneg] in *.
      * unfold Math_min. apply Rmin_glb; [ assumption | apply Hf ].
      * apply Hf.
Qed.


End Compliance.

Section ComplianceResults.
Import JS RouteCompliance.
Local Open Scope R_scope.

(** The loop over a path whose points all have deviation 0. *)
Lemma tallyPath_zero_deviation (route : list Coordinate) (tol : R)
    (path : list Coordinate) (count : nat) :
  0 <= tol ->
  (forall p, In p path -> minDistanceToRoute route p = Finite 0) ->
  fold_left (tallyPoint route tol) path
    {| compliantPoints := count;
       totalDeviation := Finite 0;
       maxDeviationSoFar := Finite 0 |} =
  {| compliantPoints := count + length path;
     totalDeviation := Finite 0;
     maxDeviationSoFar := Finite 0 |}.
Proof.
  intros Htol. revert count.
  induction path as [ | p path IH ]; intros count Hzero; cbn [fold_left length].
  - now rewrite Nat.add_0_r.
  - unfold tallyPoint at 2. rewrite (Hzero p) by now left.
    cbn [compliantPoints totalDeviation maxDeviationSoFar xle xadd xmax].
    destruct (Rle_dec 0 tol) as [_ | Hn]; [ | contradiction ].
    unfold Math_max. rewrite Rmax_left by lra. rewrite Rplus_0_r.
    rewrite IH by (intros q Hq; apply Hzero; now right).
    f_equal. lia.
Qed.


End ComplianceResults.

(** ** Unscheduled stops *)

Section StopDetection.
Import JS RouteConfrontationMap.
Local Open Scope R_scope.

Variables (destinationLat destinationLng : option R).
Variables (stopThresholdMinutes distanceThresholdMeters : R).

Local Abbreviation visit :=
  (visitPair destinationLat destinationLng
     stopThresholdMinutes distanceThresholdMeters).

Lemma consecutivePairs_cons (a b : GpsRoutePoint) (l : list GpsRoutePoint) :
  consecutivePairs (a :: b :: l) = (a, b) :: consecutivePairs (b :: l).
Proof. reflexivity. Qed.

Lemma visitPair_near (st : Detector) (first prev curr : GpsRoutePoint) :
  near distanceThresholdMeters (prev, curr) ->
  stopStart st = Some first ->
  visit st (prev, curr) =
  {| stops := stops st;
     stopStart := Some first;
     stopPoints := stopPoints st ++ [curr] |}.
Proof.
  unfold near, visit, visitPair. cbn [fst snd]. intros Hnear Hstart.
  destruct (Rlt_dec _ distanceThresholdMeters) as [_ | Hn];
    [ | contradiction ].
  now rewrite Hstart.
Qed.

Lemma visitPair_near_start (st : Detector) (prev curr : GpsRoutePoint) :
  near distanceThresholdMeters (prev, curr) ->
  stopStart st = None ->
  visit st (prev, curr) =
  {| stops := stops st;
     stopStart := Some prev;
     stopPoints := [prev; curr] |}.
Proof.
  unfold near, visit, visitPair. cbn [fst snd]. intros Hnear Hstart.
  destruct (Rlt_dec _ distanceThresholdMeters) as [_ | Hn];
    [ | contradiction ].
  now rewrite Hstart.
Qed.

Lemma visitPair_far (st : Detector) (prev curr : GpsRoutePoint) :
  ~ near distanceThresholdMeters (prev, curr) ->
  visit st (prev, curr) =
  {| stops := closeRun destinationLat destinationLng stopThresholdMinutes st;
     stopStart := None;
     stopPoints := [] |}.
Proof.
  unfold near, visit, visitPair. cbn [fst snd]. intros Hfar.
  destruct (Rlt_dec _ distanceThresholdMeters) as [Hn | _];
    [ contradiction | reflexivity ].
Qed.

(** The loop inside a stationary run only appends to [stopPoints]. *)
Lemma fold_run (l : list GpsRoutePoint) :
  forall (a first : GpsRoutePoint) (found : list UnscheduledStop)
         (pts : list GpsRoutePoint),
  Forall (near distanceThresholdMeters) (consecutivePairs (a :: l)) ->
  fold_left visit (consecutivePairs (a :: l))
    {| stops := found; stopStart := Some first; stopPoints := pts |} =
  {| stops := found; stopStart := Some first; stopPoints := pts ++ l |}.
Proof.
  induction l as [ | b l IH ]; intros a first found pts Hrun.
  - cbn. now rewrite app_nil_r.
  - rewrite consecutivePairs_cons in *. inversion Hrun as [ | ? ? Hab Hrest ].
    subst. cbn [fold_left].
    rewrite (visitPair_near _ first) by (assumption || reflexivity).
    cbn [stops stopPoints]. rewrite IH by assumption.
    now rewrite <- app_assoc.
Qed.

(** The loop over a track that is one stationary run from its first
    sample on. *)
Lemma fold_stationary_track (a b : GpsRoutePoint) (l : list GpsRoutePoint) :
  Forall (near distanceThresholdMeters) (consecutivePairs (a :: b :: l)) ->
  fold_left visit (consecutivePairs (a :: b :: l))
    {| stops := []; stopStart := None; stopPoints := [] |} =
  {| stops := []; stopStart := Some a; stopPoints := a :: b :: l |}.
Proof.
  rewrite consecutivePairs_cons. intros Hrun.
  inversion Hrun as [ | ? ? Hab Hrest ]. subst. cbn [fold_left].
  rewrite visitPair_near_start by (assumption || reflexivity).
  cbn [stops]. now rewrite fold_run.
Qed.

Lemma last_nonempty_default (b : GpsRoutePoint) (l : list GpsRoutePoint)
    (d d' : GpsRoutePoint) :
  last (b :: l) d = last (b :: l) d'.
Proof.
  revert b. induction l as [ | c l IH ]; intros b; [ reflexivity | ].
  change (last (b :: c :: l) d) with (last (c :: l) d).
  change (last (b :: c :: l) d') with (last (c :: l) d').
  apply IH.
Qed.

Lemma consecutivePairs_snoc (a : GpsRoutePoint) (l : list GpsRoutePoint)
    (j : GpsRoutePoint) :
  consecutivePairs ((a :: l) ++ [j]) =
  consecutivePairs (a :: l) ++ [(last (a :: l) a, j)].
Proof.
  revert a. induction l as [ | b l IH ]; intros a.
  - reflexivity.
  - change ((a :: b :: l) ++ [j]) with (a :: (b :: l) ++ [j]).
    change ((b :: l) ++ [j]) with (b :: l ++ [j]).
    rewrite !consecutivePairs_cons.
    change (b :: l ++ [j]) with ((b :: l) ++ [j]). rewrite IH.
    cbn [app]. do 2 f_equal.
    change (last (a :: b :: l) a) with (last (b :: l) a).
    now rewrite (last_nonempty_default b l b a).
Qed.

End StopDetection.

Section StopReports.
Import JS RouteConfrontationMap.
Local Open Scope R_scope.

Variables (destinationLat destinationLng : option R).
Variables (stopThresholdMinutes distanceThresholdMeters : option R).

Local Abbreviation minutes := (orDefault stopThresholdMinutes 10).
Local Abbreviation meters := (orDefault distanceThresholdMeters 100).

(** A track that is one stationary run up to its last sample: the run is
    closed after the loop. *)
Lemma detect_stationary_track (a b : GpsRoutePoint) (l : list GpsRoutePoint) :
  Forall (near meters) (consecutivePairs (a :: b :: l)) ->
  detectUnscheduledStops (a :: b :: l) destinationLat destinationLng
    stopThresholdMinutes distanceThresholdMeters =
  closeRun destinationLat destinationLng minutes
    {| stops := []; stopStart := Some a; stopPoints := a :: b :: l |}.
Proof.
  intros Hrun. unfold detectUnscheduledStops.
  cbn [length Nat.ltb Nat.leb].
  fold minutes meters. now rewrite fold_stationary_track.
Qed.

(** A stationary run followed by one sample that jumps away: the run is
    closed inside the loop. *)
Lemma detect_run_then_jump (a b : GpsRoutePoint) (l : list GpsRoutePoint)
    (j : GpsRoutePoint) :
  Forall (near meters) (consecutivePairs (a :: b :: l)) ->
  ~ near meters (last (a :: b :: l) a, j) ->
  detectUnscheduledStops ((a :: b :: l) ++ [j]) destinationLat destinationLng
    stopThresholdMinutes distanceThresholdMeters =
  closeRun destinationLat destinationLng minutes
    {| stops := []; stopStart := Some a; stopPoints := a :: b :: l |}.
Proof.
  intros Hrun Hjump. unfold detectUnscheduledStops.
  cbn [length app Nat.ltb Nat.leb].
  fold minutes meters.
  change (a :: b :: l ++ [j]) with ((a :: b :: l) ++ [j]).
  rewrite consecutivePairs_snoc, fold_left_app, fold_stationary_track
    by assumption.
  cbn [fold_left]. rewrite visitPair_far by assumption.
  reflexivity.
Qed.

(** What closing a run of at least two samples reports. *)
Lemma closeRun_run (first : GpsRoutePoint) (pts : list GpsRoutePoint)
    (found : list UnscheduledStop) (thr : R) :
  (2 <= length pts)%nat ->
  closeRun destinationLat destinationLng thr
    {| stops := found; stopStart := Some first; stopPoints := pts |} =
  let duration :=
    IZR (timestamp (last pts first) - timestamp first) / 60000 in
  if Rge_dec duration thr then
    if isAtDestination destinationLat destinationLng first then found
    else found ++ [ {| stopLatitude := latitude first;
                       stopLongitude := longitude first;
                       startTime := timestamp first;
                       duration := Math_round duration |} ]
  else found.
Proof.
  intros Hlen. unfold closeRun. cbn [stopStart stopPoints stops].
  destruct (Nat.ltb_spec 1 (length pts)) as [_ | Hn]; [ | lia ].
  cbv zeta. destruct (Rge_dec _ thr); [ | reflexivity ].
  now destruct (isAtDestination destinationLat destinationLng first).
Qed.

End StopReports.

(** ** Distances along a meridian *)

Section Meridian.
Import JS RouteConfrontationMap.
Local Open Scope R_scope.

Lemma PI_bounds : 314 / 100 < PI < 315 / 100.
Proof.
  pose proof (PI_2_3_7_ineq 1) as H.
  unfold sum_f_R0, tg_alt, PI_2_3_7_tg, Ratan_seq in H.
  simpl in H. lra.
Qed.

Lemma calculateDistance_north (lat1 lat2 lng0 : R) :
  0 <= lat2 - lat1 < 180 ->
  calculateDistance lat1 lng0 lat2 lng0 =
  6371000 * ((lat2 - lat1) * (PI / 180)).
Proof.
  intros Hd. rewrite calculateDistance_haversine.
  now rewrite haversineDistance_meridian.
Qed.

Lemma calculateDistance_south (lat1 lat2 lng0 : R) :
  0 <= lat1 - lat2 < 180 ->
  calculateDistance lat1 lng0 lat2 lng0 =
  6371000 * ((lat1 - lat2) * (PI / 180)).
Proof.
  intros Hd. rewrite calculateDistance_haversine, haversineDistance_sym.
  now rewrite haversineDistance_meridian.
Qed.

(** Bounds on a northward distance, from bounds on the latitude difference:
    a degree of latitude is between 111138 and 111493 m. *)
Lemma calculateDistance_north_bounds (lat1 lat2 lng0 lo hi : R) :
  0 <= lo -> lo <= lat2 - lat1 <= hi -> hi < 180 ->
  111138 * lo <= calculateDistance lat1 lng0 lat2 lng0 <= 111493 * hi.
Proof.
  intros Hlo Hd Hhi. rewrite calculateDistance_north by lra.
  pose proof PI_bounds. nra.
Qed.

Lemma calculateDistance_south_bounds (lat1 lat2 lng0 lo hi : R) :
  0 <= lo -> lo <= lat1 - lat2 <= hi -> hi < 180 ->
  111138 * lo <= calculateDistance lat1 lng0 lat2 lng0 <= 111493 * hi.
Proof.
  intros Hlo Hd Hhi. rewrite calculateDistance_south by lra.
  pose proof PI_bounds. nra.
Qed.

End Meridian.

Section SampleTracks.
Import JS RouteConfrontationMap Examples.
Local Open Scope R_scope.

(** Two samples on one meridian, [gap] ten-thousandths of a degree apart. *)
Lemma sample_distance_bounds (a b : Z) (lng0 : R) (ta tb : Z) :
  (Z.abs (b - a) < 1800000)%Z ->
  111138 * (IZR (Z.abs (b - a)) / 10000) <=
  calculateDistance (latitude (sample a lng0 ta)) (longitude (sample a lng0 ta))
    (latitude (sample b lng0 tb)) (longitude (sample b lng0 tb)) <=
  111493 * (IZR (Z.abs (b - a)) / 10000).
Proof.
  intros Hgap. cbn [sample latitude longitude].
  assert (Hbound : IZR (Z.abs (b - a)) < 1800000) by now apply IZR_lt.
  destruct (Z_le_gt_dec a b) as [Hab | Hab].
  - assert (Hle : IZR a <= IZR b) by now apply IZR_le.
    rewrite Z.abs_eq in * by lia. rewrite minus_IZR in *.
    apply calculateDistance_north_bounds; lra.
  - assert (Hlt : IZR b < IZR a) by (apply IZR_lt; lia).
    rewrite Z.abs_neq in * by lia. rewrite opp_IZR, minus_IZR in *.
    apply calculateDistance_south_bounds; lra.
Qed.

Lemma sample_near (a b : Z) (lng0 : R) (ta tb : Z) (meters : R) :
  (Z.abs (b - a) < 1800000)%Z ->
  111493 * (IZR (Z.abs (b - a)) / 10000) < meters ->
  near meters (sample a lng0 ta, sample b lng0 tb).
Proof.
  intros Hgap Hlt. unfold near. cbn [fst snd].
  pose proof (sample_distance_bounds a b lng0 ta tb Hgap). lra.
Qed.

Lemma sample_far (a b : Z) (lng0 : R) (ta tb : Z) (meters : R) :
  (Z.abs (b - a) < 1800000)%Z ->
  meters <= 111138 * (IZR (Z.abs (b - a)) / 10000) ->
  ~ near meters (sample a lng0 ta, sample b lng0 tb).
Proof.
  intros Hgap Hle. unfold near. cbn [fst snd].
  pose proof (sample_distance_bounds a b lng0 ta tb Hgap). lra.
Qed.

Lemma boundaryTrack_within_50m :
  near 50 (sample 100000 20 0, sample 100003 20 5) /\
  near 50 (sample 100003 20 5, sample 100001 20 10) /\
  near 50 (sample 100000 20 0, sample 100001 20 10).
Proof.
  repeat split; apply sample_near; cbn; lra || lia.
Qed.

Lemma boundaryTrack_jump_1km :
  ~ near 1000 (sample 100001 20 10, sample 100091 20 15) /\
  near 1004 (sample 100001 20 10, sample 100091 20 15).
Proof.
  split; [ apply sample_far | apply sample_near ]; cbn; lra || lia.
Qed.

End SampleTracks.


(** ** The projection onto a segment *)

Section Projection.
Import JS RouteCompliance.
Local Open Scope R_scope.

Lemma pointToLineSegmentDistance_projection (p s e : Coordinate) :
  pointToLineSegmentDistance p s e =
  haversineDistance p (pointOnSegment s e (projectionParameter p s e)).
Proof.
  unfold pointToLineSegmentDistance, Math_sqrt.
  set (l := (lat e - lat s) * (lat e - lat s) +
            (lng e - lng s) * (lng e - lng s)).
  destruct (Req_dec_T (sqrt l) 0) as [Hz | Hnz]; [ | reflexivity ].
  apply sqrt_eq_0 in Hz;
    [ | apply Rplus_le_le_0_compat; apply Rle_0_sqr ].
  destruct (Rplus_sqr_eq_0 (lat e - lat s) (lng e - lng s) Hz) as [Hla Hlo].
  rewrite !haversineDistance_term. unfold pointOnSegment. cbn [lat lng].
  rewrite Hla, Hlo, !Rmult_0_r, !Rplus_0_r. reflexivity.
Qed.

(** Among the points of the segment, the one at the clamped parameter is
    closest to [p] in the plane. *)
Lemma projectionParameter_closest (p s e : Coordinate) (t' : R) :
  0 <= t' <= 1 ->
  planarSquaredDistance p (pointOnSegment s e (projectionParameter p s e)) <=
  planarSquaredDistance p (pointOnSegment s e t').
Proof.
  intros Ht'. unfold planarSquaredDistance, pointOnSegment. cbn [lat lng].
  unfold projectionParameter, Math_sqrt, Math_max, Math_min.
  set (a := lat e - lat s). set (b := lng e - lng s).
  set (x := lat p - lat s). set (y := lng p - lng s).
  assert (Hl : 0 <= a * a + b * b)
    by (apply Rplus_le_le_0_compat; apply Rle_0_sqr).
  rewrite sqrt_sqrt by assumption.
  set (u := (x * a + y * b) / (a * a + b * b)).
  set (t := Rmax 0 (Rmin 1 u)).
  replace (lat p - (lat s + t * a)) with (x - t * a) by (unfold x; ring).
  replace (lng p - (lng s + t * b)) with (y - t * b) by (unfold y; ring).
  replace (lat p - (lat s + t' * a)) with (x - t' * a) by (unfold x; ring).
  replace (lng p - (lng s + t' * b)) with (y - t' * b) by (unfold y; ring).
  destruct (Req_dec_T (a * a + b * b) 0) as [Hz | Hnz].
  - destruct (Rplus_sqr_eq_0 a b Hz) as [Ha Hb]. rewrite Ha, Hb. lra.
  - assert (Hu : x * a + y * b = u * (a * a + b * b))
      by (unfold u; field; assumption).
    assert (Hdiff :
      (x - t' * a) * (x - t' * a) + (y - t' * b) * (y - t' * b) -
      ((x - t * a) * (x - t * a) + (y - t * b) * (y - t * b)) =
      (a * a + b * b) * ((t' - t) * (t' + t - 2 * u))).
    { transitivity ((a * a + b * b) * (t' * t' - t * t) -
                    2 * (x * a + y * b) * (t' - t)); [ ring | ].
      rewrite Hu. ring. }
    assert (Hprod : 0 <= (t' - t) * (t' + t - 2 * u)).
    { unfold t. destruct (Rle_dec u 0) as [Hu0 | Hu0].
      - rewrite Rmin_right by lra. rewrite Rmax_left by lra. nra.
      - destruct (Rle_dec 1 u) as [Hu1 | Hu1].
        + rewrite Rmin_left by lra. rewrite Rmax_right by lra. nra.
        + rewrite Rmin_right by lra. rewrite Rmax_right by lra.
          replace ((t' - u) * (t' + u - 2 * u)) with ((t' - u) * (t' - u))
            by ring.
          apply Rle_0_sqr. }
    assert (0 <= (a * a + b * b) * ((t' - t) * (t' + t - 2 * u)))
      by now apply Rmult_le_pos.
    lra.
Qed.

End Projection.

(** ** The tolerance test *)

Section Tolerance.
Import JS RouteCompliance.
Local Open Scope R_scope.

(** What one iteration of the outer loop does to the count. *)
Lemma tallyPoint_compliantPoints (route : list Coordinate) (tol : R)
    (acc : Tally) (p : Coordinate) (d : R) :
  minDistanceToRoute route p = Finite d ->
  compliantPoints (tallyPoint route tol acc p) =
  if Rle_dec d tol then S (compliantPoints acc) else compliantPoints acc.
Proof.
  intros Hd. unfold tallyPoint. rewrite Hd.
  cbn [compliantPoints xle]. now destruct (Rle_dec d tol).
Qed.

(** The percentage of a path of one point. *)
Lemma calculateRouteCompliance_single (p s e : Coordinate) (tol d : R) :
  minDistanceToRoute (interpolateRoute s e (Some 20%Z)) p = Finite d ->
  compliancePercent (calculateRouteCompliance [p] s e (Some tol)) =
  if Rle_dec d tol then 100 else 0.
Proof.
  intros Hd. unfold calculateRouteCompliance, tallyPath.
  cbn [orDefault fold_left length compliancePercent].
  rewrite (tallyPoint_compliantPoints _ _ _ _ _ Hd).
  cbn [compliantPoints]. destruct (Rle_dec d tol).
  - replace (INR 1 / INR 1 * 100 * 10) with 1000 by (cbn [INR]; field).
    rewrite (Math_round_integer 1000). lra.
  - replace (INR 0 / INR 1 * 100 * 10) with 0 by (cbn [INR]; field).
    rewrite (Math_round_integer 0). lra.
Qed.

Lemma fold_xmin_finite (A : Type) (f : A -> R) (l : list A) (x : R) :
  0 <= x -> (forall s, 0 <= f s) ->
  exists d, fold_left (fun m s => xmin m (Finite (f s))) l (Finite x) =
            Finite d /\ 0 <= d.
Proof.
  intros Hx Hf. revert x Hx.
  induction l as [ | s l IH ]; intros x Hx; cbn [fold_left xmin].
  - now exists x.
  - apply IH. unfold Math_min. apply Rmin_glb; [ assumption | apply Hf ].
Qed.

(** Every point has a finite, non-negative deviation from the 21-waypoint
    route: the inner loop runs over 20 segments and leaves [Infinity]
    behind. *)
Lemma minDistanceToRoute_finite (s e p : Coordinate) :
  exists d, minDistanceToRoute (interpolateRoute s e (Some 20%Z)) p =
            Finite d /\ 0 <= d.
Proof.
  unfold minDistanceToRoute.
  remember (interpolateRoute s e (Some 20%Z)) as route eqn:Hroute.
  assert (Hlen : length route = 21%nat)
    by (subst route; now rewrite interpolateRoute_length).
  destruct route as [ | a [ | b rest ] ]; try discriminate Hlen.
  cbn [segments tl combine fold_left xmin fst snd].
  apply (fold_xmin_finite _
           (fun seg => pointToLineSegmentDistance p (fst seg) (snd seg))).
  - apply pointToLineSegmentDistance_nonneg.
  - intros seg. apply pointToLineSegmentDistance_nonneg.
Qed.

(** With the pickup and the delivery at one place, the planned route is that
    place 21 times, and the deviation of a point is its distance to it. *)
Lemma minDistanceToRoute_single_place (s p : Coordinate) :
  minDistanceToRoute (interpolateRoute s s (Some 20%Z)) p =
  Finite (haversineDistance p s).
Proof.
  assert (Hroute : interpolateRoute s s (Some 20%Z) =
                   map (fun _ => s) (loopIndices 20)).
  { unfold interpolateRoute. cbn [orDefault]. apply map_ext. intros i.
    destruct s as [la lo]. cbn [lat lng]. f_equal; ring. }
  rewrite Hroute. unfold minDistanceToRoute.
  change (map (fun _ : Z => s) (loopIndices 20)) with (repeat s 21).
  cbn [repeat segments tl combine fold_left fst snd xmin].
  rewrite pointToLineSegmentDistance_degenerate.
  set (d := haversineDistance p s).
  unfold Math_min. now rewrite !(Rmin_left d d) by lra.
Qed.

End Tolerance.

(** ** The destination test *)

Section Destination.
Import JS RouteConfrontationMap Examples.
Local Open Scope R_scope.

Lemma truthy_zero : truthy (Some 0) = false.
Proof.
  cbn. destruct (Req_dec_T 0 0) as [_ | Hne]; [ reflexivity | now elim Hne ].
Qed.

Lemma truthy_nonzero (x : R) : x <> 0 -> truthy (Some x) = true.
Proof.
  intros Hx. cbn.
  destruct (Req_dec_T x 0) as [Hz | _]; [ contradiction | reflexivity ].
Qed.

Lemma isAtDestination_absent (first : GpsRoutePoint) :
  isAtDestination None None first = false.
Proof. reflexivity. Qed.

(** A destination coordinate that is 0 is falsy, like an absent one. *)
Lemma isAtDestination_zero (destinationLat destinationLng : option R)
    (first : GpsRoutePoint) :
  destinationLat = Some 0 \/ destinationLng = Some 0 ->
  isAtDestination destinationLat destinationLng first = false.
Proof.
  unfold isAtDestination. intros [-> | ->]; rewrite truthy_zero.
  - reflexivity.
  - now rewrite andb_false_r.
Qed.

Lemma isAtDestination_nonzero (dLat dLng : R) (first : GpsRoutePoint) :
  dLat <> 0 -> dLng <> 0 ->
  isAtDestination (Some dLat) (Some dLng) first =
  if Rlt_dec (calculateDistance (latitude first) (longitude first) dLat dLng)
       200
  then true else false.
Proof.
  intros Hlat Hlng. unfold isAtDestination.
  now rewrite !truthy_nonzero by assumption.
Qed.

Lemma closeRun_ext (lat1 lng1 lat2 lng2 : option R) (thr : R)
    (st : Detector) :
  (forall first, isAtDestination lat1 lng1 first =
                 isAtDestination lat2 lng2 first) ->
  closeRun lat1 lng1 thr st = closeRun lat2 lng2 thr st.
Proof.
  intros Hsame. unfold closeRun.
  destruct (stopStart st) as [first | ]; [ | reflexivity ].
  now rewrite Hsame.
Qed.

Lemma fold_visitPair_ext (lat1 lng1 lat2 lng2 : option R) (thr dthr : R)
    (pairs : list (GpsRoutePoint * GpsRoutePoint)) :
  (forall first, isAtDestination lat1 lng1 first =
                 isAtDestination lat2 lng2 first) ->
  forall st,
    fold_left (visitPair lat1 lng1 thr dthr) pairs st =
    fold_left (visitPair lat2 lng2 thr dthr) pairs st.
Proof.
  intros Hsame.
  induction pairs as [ | [prev curr] pairs IH ]; intros st;
    [ reflexivity | ].
  cbn [fold_left]. rewrite IH. f_equal.
  unfold visitPair. now rewrite (closeRun_ext lat1 lng1 lat2 lng2 thr st Hsame).
Qed.

(** Two destinations with the same test give the same stops. *)
Lemma detectUnscheduledStops_ext (lat1 lng1 lat2 lng2 : option R)
    (thr dthr : option R) (gpsPoints : list GpsRoutePoint) :
  (forall first, isAtDestination lat1 lng1 first =
                 isAtDestination lat2 lng2 first) ->
  detectUnscheduledStops gpsPoints lat1 lng1 thr dthr =
  detectUnscheduledStops gpsPoints lat2 lng2 thr dthr.
Proof.
  intros Hsame. unfold detectUnscheduledStops.
  destruct (length gpsPoints <? 2)%nat; [ reflexivity | ].
  rewrite (fold_visitPair_ext lat1 lng1 lat2 lng2 _ _ _ Hsame).
  now apply closeRun_ext.
Qed.

(** A track that is one stationary run, closed by the end of the track or
    by a jump: what the detector returns. *)
Lemma detect_single_run
    (destinationLat destinationLng : option R) (thr dthr : option R)
    (a b : GpsRoutePoint) (l tail : list GpsRoutePoint) :
  Forall (near (orDefault dthr 100)) (consecutivePairs (a :: b :: l)) ->
  runEnds (orDefault dthr 100) (last (a :: b :: l) a) tail ->
  detectUnscheduledStops ((a :: b :: l) ++ tail)
    destinationLat destinationLng thr dthr =
  let minutes :=
    IZR (timestamp (last (a :: b :: l) a) - timestamp a) / 60000 in
  if Rge_dec minutes (orDefault thr 10)
  then if isAtDestination destinationLat destinationLng a then []
       else [ stopAt a (Math_round minutes) ]
  else [].
Proof.
  intros Hrun [-> | (jump & -> & Hjump)].
  - rewrite app_nil_r, detect_stationary_track by assumption.
    now rewrite closeRun_run by (cbn [length]; lia).
  - rewrite detect_run_then_jump by assumption.
    now rewrite closeRun_run by (cbn [length]; lia).
Qed.

Lemma dwellTrack_stationary (lng0 : R) :
  Forall (near 100)
    (consecutivePairs
       [ sample 100000 lng0 0; sample 100003 lng0 5; sample 100001 lng0 10;
         sample 100002 lng0 15 ]).
Proof.
  repeat constructor; apply sample_near; cbn; lra || lia.
Qed.

Lemma dwellTrack_near_destination (lng0 : R) :
  calculateDistance (latitude (sample 100000 lng0 0))
    (longitude (sample 100000 lng0 0)) nearLat lng0 < 200.
Proof.
  cbn [sample latitude longitude]. unfold nearLat.
  pose proof (calculateDistance_north_bounds (100000 / 10000) (10001 / 1000)
                lng0 (1 / 1000) (1 / 1000)).
  lra.
Qed.

Lemma dwellTrack_far_destination (lng0 : R) :
  1000 <= calculateDistance (latitude (sample 100000 lng0 0))
            (longitude (sample 100000 lng0 0)) farLat lng0.
Proof.
  cbn [sample latitude longitude]. unfold farLat.
  pose proof (calculateDistance_north_bounds (100000 / 10000) (10009 / 1000)
                lng0 (9 / 1000) (9 / 1000)).
  lra.
Qed.

End Destination.

(** * The claims *)

Section Claims.
Import JS RouteCompliance.
Local Open Scope R_scope.

(** C9.  On a zero-length segment [pointToLineSegmentDistance] is the
    haversine distance to the segment's one point; it is a total function,
    so there is nothing to raise.  In general its result is the haversine
    distance to the point of the segment at the projection parameter, which
    is clamped to [[0, 1]]: a point of the segment, never of its extension,
    and the one closest to [point] in the plane. *)
Theorem C9_segment_distance_degenerate_and_clamped (point s e : Coordinate) :
  pointToLineSegmentDistance point s s = haversineDistance point s /\
  (let t := projectionParameter point s e in
   0 <= t <= 1 /\
   pointToLineSegmentDistance point s e =
     haversineDistance point (pointOnSegment s e t) /\
   (forall t', 0 <= t' <= 1 ->
      planarSquaredDistance point (pointOnSegment s e t) <=
      planarSquaredDistance point (pointOnSegment s e t'))).
Proof.
  split; [ apply pointToLineSegmentDistance_degenerate | ].
  intros t. split; [ apply clamp_bounds | ].
  split; [ apply pointToLineSegmentDistance_projection | ].
  intros t' Ht'. now apply projectionParameter_closest.
Qed.



Lemma C9_witness :
  let point := {| lat := 1; lng := 1 |} in
  let s := {| lat := 0; lng := 0 |} in
  let e := {| lat := 2; lng := 0 |} in
  0 <= 1 / 2 <= 1 /\
  planarSquaredDistance point
    (pointOnSegment s e (projectionParameter point s e)) <=
  planarSquaredDistance point (pointOnSegment s e (1 / 2)).
Proof.
  intros point s e.
  assert (Hhalf : 0 <= 1 / 2 <= 1) by lra.
  split; [ exact Hhalf | ].
  exact (proj2 (proj2 (proj2
    (C9_segment_distance_degenerate_and_clamped point s e))) (1 / 2) Hhalf).
Defined.

(** C5.  Empty input gets a default and no error: an empty path is 100
    percent compliant with both deviations 0, and a track of fewer than two
    samples has no unscheduled stops. *)
Theorem C5_empty_input_defaults
    (expectedStart expectedEnd : Coordinate) (toleranceMeters : option R)
    (gpsPoints : list RouteConfrontationMap.GpsRoutePoint)
    (destinationLat destinationLng : option R)
    (stopThresholdMinutes distanceThresholdMeters : option R) :
  calculateRouteCompliance [] expectedStart expectedEnd toleranceMeters =
    {| compliancePercent := 100;
       maxDeviation := Finite 0;
       averageDeviation := Finite 0 |} /\
  ((length gpsPoints < 2)%nat ->
   RouteConfrontationMap.detectUnscheduledStops gpsPoints
     destinationLat destinationLng
     stopThresholdMinutes distanceThresholdMeters = []).
Proof.
  split; [ reflexivity | ].
  intros Hshort. unfold RouteConfrontationMap.detectUnscheduledStops.
  destruct (Nat.ltb_spec (length gpsPoints) 2) as [_ | Hge];
    [ reflexivity | lia ].
Qed.

Lemma C5_witness :
  (length [Examples.sample 100000 20 0] < 2)%nat /\
  RouteConfrontationMap.detectUnscheduledStops [Examples.sample 100000 20 0]
    (Some Examples.nearLat) (Some 20) None None = [].
Proof.
  assert (Hshort : (length [Examples.sample 100000 20 0] < 2)%nat)
    by (cbn; lia).
  split; [ exact Hshort | ].
  exact (proj2 (C5_empty_input_defaults
    {| lat := 0; lng := 0 |} {| lat := 0; lng := 0 |} None
    [Examples.sample 100000 20 0] (Some Examples.nearLat) (Some 20)
    None None) Hshort).
Defined.

(** C4.  A point whose deviation, its minimum distance to the planned
    polyline, is exactly [toleranceMeters] is counted as compliant, and a
    point whose deviation is larger is not: by the loop's counter on any
    path, and in the percentage of a path of that one point. *)
Theorem C4_tolerance_is_inclusive
    (point expectedStart expectedEnd : Coordinate)
    (toleranceMeters deviation : R) (acc : Tally) :
  let expectedRoute := interpolateRoute expectedStart expectedEnd (Some 20%Z) in
  minDistanceToRoute expectedRoute point = Finite deviation ->
  (deviation = toleranceMeters ->
   compliantPoints (tallyPoint expectedRoute toleranceMeters acc point) =
     S (compliantPoints acc) /\
   compliancePercent
     (calculateRouteCompliance [point] expectedStart expectedEnd
        (Some toleranceMeters)) = 100) /\
  (toleranceMeters < deviation ->
   compliantPoints (tallyPoint expectedRoute toleranceMeters acc point) =
     compliantPoints acc /\
   compliancePercent
     (calculateRouteCompliance [point] expectedStart expectedEnd
        (Some toleranceMeters)) = 0).
Proof.
  intros expectedRoute Hdev.
  rewrite (tallyPoint_compliantPoints _ _ _ _ _ Hdev).
  rewrite (calculateRouteCompliance_single _ _ _ _ _ Hdev).
  split; intros Hcmp;
    destruct (Rle_dec deviation toleranceMeters); split;
      reflexivity || lra.
Qed.

Lemma C4_witness :
  let depot := {| lat := 10; lng := 20 |} in
  let point := {| lat := 1001 / 100; lng := 20 |} in
  let deviation := haversineDistance point depot in
  minDistanceToRoute (interpolateRoute depot depot (Some 20%Z)) point =
    Finite deviation /\
  compliancePercent
    (calculateRouteCompliance [point] depot depot (Some deviation)) = 100 /\
  deviation - 1 < deviation /\
  compliancePercent
    (calculateRouteCompliance [point] depot depot (Some (deviation - 1))) = 0.
Proof.
  intros depot point deviation.
  assert (Hdev : minDistanceToRoute (interpolateRoute depot depot (Some 20%Z))
                   point = Finite deviation)
    by apply minDistanceToRoute_single_place.
  assert (Hless : deviation - 1 < deviation) by lra.
  split; [ exact Hdev | ]. split; [ | split; [ exact Hless | ] ].
  - exact (proj2 (proj1
      (C4_tolerance_is_inclusive point depot depot deviation deviation
         (mkTally 0 (Finite 0) (Finite 0)) Hdev) eq_refl)).
  - exact (proj2 (proj2
      (C4_tolerance_is_inclusive point depot depot (deviation - 1) deviation
         (mkTally 0 (Finite 0) (Finite 0)) Hdev) Hless)).
Defined.

(** C2, as amended.  The two planned-route builders have different
    defaults.  The client's [interpolatePlannedRoute] defaults to 20
    intervals and builds 21 waypoints when [numPoints] is omitted.  The
    server's [interpolateRoute] defaults to 10 and builds 11; it builds 21
    only because [calculateRouteCompliance] passes 20 explicitly. *)
Theorem C2_default_numPoints
    (startLat startLng endLat endLng : R) (start end_ : Coordinate) :
  length (RouteConfrontationMap.interpolatePlannedRoute
            startLat startLng endLat endLng None) = 21%nat /\
  length (interpolateRoute start end_ None) = 11%nat /\
  length (interpolateRoute start end_ (Some 20%Z)) = 21%nat /\
  forall (point : Coordinate) (rest : list Coordinate)
         (toleranceMeters : option R),
    maxDeviation
      (calculateRouteCompliance (point :: rest) start end_ toleranceMeters) =
    xround (maxDeviationSoFar
      (tallyPath (interpolateRoute start end_ (Some 20%Z))
         (orDefault toleranceMeters 500) (point :: rest))).
Proof.
  split; [ | split; [ | split ] ].
  - unfold RouteConfrontationMap.interpolatePlannedRoute. cbn [orDefault].
    now rewrite length_map, loopIndices_length.
  - unfold interpolateRoute. cbn [orDefault].
    now rewrite length_map, loopIndices_length.
  - now rewrite interpolateRoute_length.
  - reflexivity.
Qed.

(** C2 as stated fails on the server's builder: without [numPoints] it
    returns 11 waypoints, not 21. *)
Lemma C2_counterexample :
  length (interpolateRoute {| lat := 10; lng := 20 |}
            {| lat := 1001 / 100; lng := 20 |} None) <> 21%nat.
Proof.
  unfold interpolateRoute. cbn [orDefault].
  rewrite length_map, loopIndices_length. discriminate.
Qed.

End Claims.

Section StopClaims.
Import JS RouteConfrontationMap Examples.
Local Open Scope R_scope.

(** C1, as amended.  Three samples that form a stationary run (consecutive
    samples less than 100 m apart), followed by a sample that jumps away.
    With no destination, stop threshold 10 and distance threshold 100, the
    call [detectUnscheduledStops(track, null, null, 10, 100)], the detector
    returns exactly one stop, at the first sample's coordinates and
    timestamp and with the rounded minutes as duration, whenever the run's
    first-to-last duration is at least 10 minutes, because the test is
    [duration >= stopThresholdMinutes]: the duration is 10 at exactly the
    threshold.  It returns the empty list exactly when the duration is below
    10 minutes.  The call with four arguments,
    [detectUnscheduledStops(track, null, 10, 100)], binds [destinationLng]
    to 10 and [stopThresholdMinutes] to 100 and leaves the distance
    threshold at its default of 100: it returns the empty list for every run
    shorter than 100 minutes, the 10-minute run among them. *)
Theorem C1_run_at_threshold_is_reported (s0 s1 s2 jump : GpsRoutePoint) :
  near 100 (s0, s1) -> near 100 (s1, s2) -> ~ near 100 (s2, jump) ->
  let track := [s0; s1; s2; jump] in
  let span := (timestamp s2 - timestamp s0)%Z in
  ((600000 <= span)%Z ->
   detectUnscheduledStops track None None (Some 10) (Some 100) =
     [ stopAt s0 (Math_round (IZR span / 60000)) ]) /\
  (span = 600000%Z ->
   detectUnscheduledStops track None None (Some 10) (Some 100) =
     [ stopAt s0 10 ]) /\
  ((span < 600000)%Z ->
   detectUnscheduledStops track None None (Some 10) (Some 100) = []) /\
  ((span < 6000000)%Z ->
   detectUnscheduledStops track None (Some 10) (Some 100) None = []).
Proof.
  intros H01 H12 Hjump track span.
  assert (Hrun : Forall (near 100) (consecutivePairs (s0 :: s1 :: [s2])))
    by (repeat constructor; assumption).
  assert (Hends : runEnds 100 (last (s0 :: s1 :: [s2]) s0) [jump])
    by (right; now exists jump).
  unfold track.
  change [s0; s1; s2; jump] with ((s0 :: s1 :: [s2]) ++ [jump]).
  rewrite (detect_single_run None None (Some 10) (Some 100));
    [ | exact Hrun | exact Hends ].
  rewrite (detect_single_run None (Some 10) (Some 100) None);
    [ | exact Hrun | exact Hends ].
  cbn [orDefault last]. fold span.
  rewrite isAtDestination_absent.
  replace (isAtDestination None (Some 10) s0) with false by reflexivity.
  cbv zeta.
  assert (Hexact : span = 600000%Z ->
            (if Rge_dec (IZR span / 60000) 10
             then [ stopAt s0 (Math_round (IZR span / 60000)) ] else []) =
            [ stopAt s0 10 ]).
  { intros ->. replace (600000 / 60000) with 10 by field.
    rewrite (Math_round_integer 10).
    destruct (Rge_dec 10 10) as [_ | Hn]; [ reflexivity | lra ]. }
  split; [ | split; [ exact Hexact | split ] ].
  - intros Hlong. apply IZR_le in Hlong.
    destruct (Rge_dec _ 10) as [_ | Hn]; [ reflexivity | lra ].
  - intros Hshort. apply IZR_lt in Hshort.
    destruct (Rge_dec _ 10) as [Hge | _]; [ lra | reflexivity ].
  - intros Hshort. apply IZR_lt in Hshort.
    destruct (Rge_dec _ 100) as [Hge | _]; [ lra | reflexivity ].
Qed.

Lemma C1_witness :
  (near 50 (sample 100000 20 0, sample 100003 20 5) /\
   near 50 (sample 100003 20 5, sample 100001 20 10) /\
   near 50 (sample 100000 20 0, sample 100001 20 10)) /\
  ~ near 1000 (sample 100001 20 10, sample 100091 20 15) /\
  detectUnscheduledStops boundaryTrack None None (Some 10) (Some 100) =
    [ stopAt (sample 100000 20 0) 10 ] /\
  detectUnscheduledStops boundaryTrack None (Some 10) (Some 100) None = [] /\
  detectUnscheduledStops shortTrack None None (Some 10) (Some 100) = [] /\
  detectUnscheduledStops
    [ sample 100000 20 0; sample 100003 20 5; sample 100001 20 12;
      sample 100091 20 15 ] None None (Some 10) (Some 100) =
    [ stopAt (sample 100000 20 0)
        (Math_round (IZR (12 * 60000 - 0 * 60000) / 60000)) ].
Proof.
  assert (H01 : near 100 (sample 100000 20 0, sample 100003 20 5))
    by (apply sample_near; cbn; lra || lia).
  assert (H12 : near 100 (sample 100003 20 5, sample 100001 20 10))
    by (apply sample_near; cbn; lra || lia).
  assert (H12' : near 100 (sample 100003 20 5, sample 100001 20 9))
    by (apply sample_near; cbn; lra || lia).
  assert (H12'' : near 100 (sample 100003 20 5, sample 100001 20 12))
    by (apply sample_near; cbn; lra || lia).
  assert (Hjump : ~ near 100 (sample 100001 20 10, sample 100091 20 15))
    by (apply sample_far; cbn; lra || lia).
  assert (Hjump' : ~ near 100 (sample 100001 20 9, sample 100091 20 15))
    by (apply sample_far; cbn; lra || lia).
  assert (Hjump'' : ~ near 100 (sample 100001 20 12, sample 100091 20 15))
    by (apply sample_far; cbn; lra || lia).
  assert (Hten : (10 * 60000 - 0 * 60000 < 6000000)%Z) by lia.
  assert (Hnine : (9 * 60000 - 0 * 60000 < 600000)%Z) by lia.
  assert (Htwelve : (600000 <= 12 * 60000 - 0 * 60000)%Z) by lia.
  pose proof (C1_run_at_threshold_is_reported
                (sample 100000 20 0) (sample 100003 20 5)
                (sample 100001 20 10) (sample 100091 20 15) H01 H12 Hjump)
    as (_ & Hexact & _ & Hliteral).
  pose proof (C1_run_at_threshold_is_reported
                (sample 100000 20 0) (sample 100003 20 5)
                (sample 100001 20 9) (sample 100091 20 15) H01 H12' Hjump')
    as (_ & _ & Hshort & _).
  pose proof (C1_run_at_threshold_is_reported
                (sample 100000 20 0) (sample 100003 20 5)
                (sample 100001 20 12) (sample 100091 20 15) H01 H12'' Hjump'')
    as (Hlong & _).
  split; [ exact boundaryTrack_within_50m | ].
  split; [ exact (proj1 boundaryTrack_jump_1km) | ].
  split; [ exact (Hexact eq_refl) | ].
  split; [ exact (Hliteral Hten) | ].
  split; [ exact (Hshort Hnine) | exact (Hlong Htwelve) ].
Defined.

(** C1 as stated fails in what it says of the threshold: for three samples
    five minutes apart within 50 m of each other and then a jump of 1 km,
    a stationary run of exactly 10 minutes, the detector with the 10-minute
    threshold and the 100 m distance threshold does not return the empty
    list. *)
Lemma C1_counterexample :
  (near 50 (sample 100000 20 0, sample 100003 20 5) /\
   near 50 (sample 100003 20 5, sample 100001 20 10) /\
   near 50 (sample 100000 20 0, sample 100001 20 10)) /\
  (~ near 1000 (sample 100001 20 10, sample 100091 20 15) /\
   near 1004 (sample 100001 20 10, sample 100091 20 15)) /\
  detectUnscheduledStops boundaryTrack None None (Some 10) (Some 100) <> [].
Proof.
  split; [ exact boundaryTrack_within_50m | ].
  split; [ exact boundaryTrack_jump_1km | ].
  unfold boundaryTrack.
  change [ sample 100000 20 0; sample 100003 20 5; sample 100001 20 10;
           sample 100091 20 15 ]
    with ((sample 100000 20 0 :: sample 100003 20 5 ::
           [ sample 100001 20 10 ]) ++ [ sample 100091 20 15 ]).
  rewrite (detect_single_run None None (Some 10) (Some 100)).
  - cbn [orDefault last sample timestamp]. cbv zeta.
    replace (IZR (10 * 60000 - 0 * 60000) / 60000) with 10
      by (change (10 * 60000 - 0 * 60000)%Z with 600000%Z; field).
    destruct (Rge_dec 10 10) as [_ | Hn]; [ | lra ].
    rewrite isAtDestination_absent. discriminate.
  - repeat constructor; apply sample_near; cbn; lra || lia.
  - right. exists (sample 100091 20 15). split; [ reflexivity | ].
    apply sample_far; cbn; lra || lia.
Qed.

(** Four samples that form a stationary run of 15 minutes, closed by the
    end of the track or by a jump, with a stop threshold of at most 15
    minutes: the detector returns one stop, of duration 15 at the first
    sample's coordinates and timestamp, unless the first sample passes the
    destination test, and then it returns none.  This holds for every
    destination, given or not. *)
Lemma detect_dwell_run (s0 s1 s2 s3 : GpsRoutePoint)
    (tail : list GpsRoutePoint) (destinationLat destinationLng : option R)
    (stopThresholdMinutes distanceThresholdMeters : option R) :
  let meters := orDefault distanceThresholdMeters 100 in
  near meters (s0, s1) -> near meters (s1, s2) -> near meters (s2, s3) ->
  runEnds meters s3 tail ->
  (timestamp s3 - timestamp s0 = 900000)%Z ->
  orDefault stopThresholdMinutes 10 <= 15 ->
  detectUnscheduledStops ([s0; s1; s2; s3] ++ tail)
    destinationLat destinationLng
    stopThresholdMinutes distanceThresholdMeters =
  if isAtDestination destinationLat destinationLng s0
  then [] else [ stopAt s0 15 ].
Proof.
  intros meters H01 H12 H23 Hends Hspan Hthr.
  rewrite detect_single_run;
    [ | repeat constructor; assumption | exact Hends ].
  cbn [last]. cbv zeta. rewrite Hspan.
  replace (900000 / 60000) with 15 by field.
  rewrite (Math_round_integer 15).
  destruct (Rge_dec 15 (orDefault stopThresholdMinutes 10)) as [_ | Hn];
    [ reflexivity | lra ].
Qed.

Lemma dwellTrack_outcome (lng0 : R)
    (destinationLat destinationLng : option R) :
  detectUnscheduledStops (dwellTrack lng0) destinationLat destinationLng
    None None =
  if isAtDestination destinationLat destinationLng (sample 100000 lng0 0)
  then [] else [ stopAt (sample 100000 lng0 0) 15 ].
Proof.
  unfold dwellTrack.
  rewrite <- (app_nil_r [ sample 100000 lng0 0; sample 100003 lng0 5;
                          sample 100001 lng0 10; sample 100002 lng0 15 ]).
  apply detect_dwell_run.
  - apply sample_near; cbn; lra || lia.
  - apply sample_near; cbn; lra || lia.
  - apply sample_near; cbn; lra || lia.
  - now left.
  - reflexivity.
  - cbn [orDefault]. lra.
Qed.

(** C6.  The destination exclusion misses a destination that has a
    coordinate equal to 0.  On the meridian of Greenwich, a stationary run of
    15 minutes whose first sample is 111 m from the destination
    [(10.001, 0)], so less than 200 m, is returned as one stop where C6 says
    there is none: [destinationLat && destinationLng && ...] takes the
    longitude 0 for an absent one.  The same run and destination on the
    meridian of 20 degrees give no stop, and a destination 1 km away gives
    the one stop of 15 minutes at the first sample, as C6 says. *)
Theorem C6_zero_coordinate_destination_is_not_excluded :
  (Forall (near 100) (consecutivePairs (dwellTrack 0)) /\
   calculateDistance (latitude (sample 100000 0 0))
     (longitude (sample 100000 0 0)) nearLat 0 < 200 /\
   detectUnscheduledStops (dwellTrack 0) (Some nearLat) (Some 0) None None =
     [ stopAt (sample 100000 0 0) 15 ]) /\
  (Forall (near 100) (consecutivePairs (dwellTrack 20)) /\
   calculateDistance (latitude (sample 100000 20 0))
     (longitude (sample 100000 20 0)) nearLat 20 < 200 /\
   detectUnscheduledStops (dwellTrack 20) (Some nearLat) (Some 20) None None =
     [] /\
   1000 <= calculateDistance (latitude (sample 100000 20 0))
             (longitude (sample 100000 20 0)) farLat 20 /\
   detectUnscheduledStops (dwellTrack 20) (Some farLat) (Some 20) None None =
     [ stopAt (sample 100000 20 0) 15 ]).
Proof.
  pose proof (dwellTrack_near_destination 20) as Hnear.
  pose proof (dwellTrack_far_destination 20) as Hfar.
  split; [ split; [ apply dwellTrack_stationary | split ] | ].
  - apply dwellTrack_near_destination.
  - rewrite dwellTrack_outcome.
    now rewrite isAtDestination_zero by now right.
  - split; [ apply dwellTrack_stationary | ].
    split; [ exact Hnear | ]. split; [ | split; [ exact Hfar | ] ].
    + rewrite dwellTrack_outcome.
      rewrite isAtDestination_nonzero by (unfold nearLat; lra).
      destruct (Rlt_dec _ 200) as [_ | Hn]; [ reflexivity | contradiction ].
    + rewrite dwellTrack_outcome.
      rewrite isAtDestination_nonzero by (unfold farLat; lra).
      destruct (Rlt_dec _ 200) as [Hlt | _]; [ lra | reflexivity ].
Qed.

(** C10.  A destination whose latitude or longitude is exactly 0 is treated
    as no destination: the detector returns what it returns without one.
    So a stationary run that lasts at least the threshold is reported as a
    stop wherever it is, also within 200 m of that destination. *)
Theorem C10_zero_coordinate_destination_is_ignored
    (gpsPoints : list GpsRoutePoint) (destinationLat destinationLng : option R)
    (stopThresholdMinutes distanceThresholdMeters : option R) :
  destinationLat = Some 0 \/ destinationLng = Some 0 ->
  detectUnscheduledStops gpsPoints destinationLat destinationLng
    stopThresholdMinutes distanceThresholdMeters =
  detectUnscheduledStops gpsPoints None None
    stopThresholdMinutes distanceThresholdMeters /\
  forall (a b : GpsRoutePoint) (l tail : list GpsRoutePoint),
    gpsPoints = (a :: b :: l) ++ tail ->
    Forall (near (orDefault distanceThresholdMeters 100))
      (consecutivePairs (a :: b :: l)) ->
    runEnds (orDefault distanceThresholdMeters 100)
      (last (a :: b :: l) a) tail ->
    let minutes :=
      IZR (timestamp (last (a :: b :: l) a) - timestamp a) / 60000 in
    minutes >= orDefault stopThresholdMinutes 10 ->
    detectUnscheduledStops gpsPoints destinationLat destinationLng
      stopThresholdMinutes distanceThresholdMeters =
    [ stopAt a (Math_round minutes) ].
Proof.
  intros Hzero. split.
  - apply detectUnscheduledStops_ext. intros first.
    now rewrite isAtDestination_zero, isAtDestination_absent.
  - intros a b l tail -> Hrun Hends minutes Hlong.
    rewrite detect_single_run by assumption. cbv zeta. fold minutes.
    rewrite isAtDestination_zero by assumption.
    destruct (Rge_dec minutes (orDefault stopThresholdMinutes 10))
      as [_ | Hn]; [ reflexivity | contradiction ].
Qed.

Lemma C10_witness :
  calculateDistance (latitude (sample 100000 0 0))
    (longitude (sample 100000 0 0)) nearLat 0 < 200 /\
  detectUnscheduledStops (dwellTrack 0) (Some nearLat) (Some 0) None None =
    detectUnscheduledStops (dwellTrack 0) None None None None /\
  detectUnscheduledStops (dwellTrack 0) (Some nearLat) (Some 0) None None =
    [ stopAt (sample 100000 0 0)
        (Math_round (IZR (15 * 60000 - 0 * 60000) / 60000)) ].
Proof.
  assert (Hzero : Some nearLat = Some 0 \/ Some 0 = Some 0) by now right.
  assert (Hends : runEnds (orDefault (@None R) 100)
                    (last (sample 100000 0 0 :: sample 100003 0 5 ::
                           [ sample 100001 0 10; sample 100002 0 15 ])
                       (sample 100000 0 0)) []) by now left.
  assert (Hlong : IZR (timestamp (last (dwellTrack 0) (sample 100000 0 0))
                       - timestamp (sample 100000 0 0)) / 60000 >=
                  orDefault (@None R) 10).
  { cbn [dwellTrack last sample timestamp orDefault].
    change (15 * 60000 - 0 * 60000)%Z with 900000%Z. lra. }
  split; [ apply dwellTrack_near_destination | ]. split.
  - exact (proj1 (C10_zero_coordinate_destination_is_ignored
             (dwellTrack 0) (Some nearLat) (Some 0) None None Hzero)).
  - exact (proj2 (C10_zero_coordinate_destination_is_ignored
             (dwellTrack 0) (Some nearLat) (Some 0) None None Hzero)
             (sample 100000 0 0) (sample 100003 0 5)
             [ sample 100001 0 10; sample 100002 0 15 ] [] eq_refl
             (dwellTrack_stationary 0) Hends Hlong).
Defined.

End StopClaims.

(** ** The planned route in binary64 arithmetic *)

Section DoubleRoute.
Import Uint63 Floats JS Double.
Local Open Scope float_scope.








(** *** Every count from 1 on is a positive [number]

    The conversion rounds the integer to 53 binary digits; what is left of a
    positive integer is a mantissa of exactly 53 digits, which is not zero. *)












End DoubleRoute.

Section RouteClaims.
Import Uint63 Floats JS.
Local Set Warnings "-inexact-float".




End RouteClaims.

(** * Further properties of the code *)

(** ** Bounds and zeros of the distances *)

Section DistanceFacts.
Import JS RouteCompliance.
Local Open Scope R_scope.

Lemma Math_atan2_first_quadrant (y x : R) :
  0 <= y -> 0 <= x -> Math_atan2 y x <= PI / 2.
Proof.
  intros Hy Hx. unfold Math_atan2. pose proof PI2_RGT_0 as Hpi.
  destruct (Rlt_dec 0 x) as [Hpos | Hnpos].
  - left. apply atan_bound.
  - destruct (Rlt_dec x 0) as [Hneg | _]; [ lra | ].
    destruct (Rlt_dec 0 y) as [_ | _]; [ lra | ].
    destruct (Rlt_dec y 0) as [_ | _]; lra.
Qed.

(** X1.  A great-circle distance is never negative and never more than half
    the circumference of the sphere, [6371000 * PI] metres (under 20070 km). *)
Theorem haversineDistance_bounds (p q : Coordinate) :
  0 <= haversineDistance p q <= 6371000 * PI /\
  haversineDistance p q < 20070000.
Proof.
  assert (Hupper : haversineDistance p q <= 6371000 * PI).
  { rewrite haversineDistance_term.
    pose proof (Math_atan2_first_quadrant _ _
      (sqrt_pos (haversineTerm (lat p) (lng p) (lat q) (lng q)))
      (sqrt_pos (1 - haversineTerm (lat p) (lng p) (lat q) (lng q)))).
    lra. }
  pose proof (haversineDistance_nonneg p q).
  pose proof PI_bounds. repeat split; lra.
Qed.

Lemma Math_round_le (x y : R) : x <= y -> Math_round x <= Math_round y.
Proof.
  intros Hxy. unfold Math_round. apply IZR_le, Zfloor_le. lra.
Qed.

Lemma Math_round_nonneg (x : R) : 0 <= x -> 0 <= Math_round x.
Proof.
  intros Hx. rewrite <- (Math_round_integer 0). now apply Math_round_le.
Qed.

(** A point of the segment is its own projection. *)
Lemma projectionParameter_on_segment (s e : Coordinate) (t : R) :
  0 <= t <= 1 ->
  (lat e - lat s) * (lat e - lat s) + (lng e - lng s) * (lng e - lng s) <> 0 ->
  projectionParameter (pointOnSegment s e t) s e = t.
Proof.
  intros Ht Hl. unfold projectionParameter, pointOnSegment, Math_sqrt.
  cbn [lat lng].
  set (a := lat e - lat s) in *. set (b := lng e - lng s) in *.
  rewrite sqrt_sqrt by (apply Rplus_le_le_0_compat; apply Rle_0_sqr).
  replace ((lat s + t * a - lat s) * a + (lng s + t * b - lng s) * b)
    with (t * (a * a + b * b)) by ring.
  replace (t * (a * a + b * b) / (a * a + b * b)) with t
    by (field; assumption).
  now apply clamp_inside.
Qed.

(** The projection of a point of the segment is at distance 0 from it. *)
Lemma pointOnSegment_distance (s e : Coordinate) (t : R) :
  0 <= t <= 1 ->
  pointToLineSegmentDistance (pointOnSegment s e t) s e = 0.
Proof.
  intros Ht. rewrite pointToLineSegmentDistance_projection.
  set (l := (lat e - lat s) * (lat e - lat s) +
            (lng e - lng s) * (lng e - lng s)).
  destruct (Req_dec_T l 0) as [Hz | Hnz].
  - destruct (Rplus_sqr_eq_0 (lat e - lat s) (lng e - lng s) Hz)
      as [Hla Hlo].
    apply haversineDistance_same; unfold pointOnSegment; cbn [lat lng];
      rewrite ?Hla, ?Hlo; ring.
  - rewrite projectionParameter_on_segment by assumption.
    now apply haversineDistance_same.
Qed.

(** X2.  In exact arithmetic, a point that lies on the segment, with its
    latitude and its longitude at one parameter between 0 and 1, is at
    distance 0 from it.  (Over the reals: in binary64 the projection of
    such a point can differ from it in the last digits, and the distance is
    then a rounding residue rather than 0.) *)
Theorem pointToLineSegmentDistance_on_segment (p s e : Coordinate) (t : R) :
  0 <= t <= 1 ->
  lat p = lat s + t * (lat e - lat s) ->
  lng p = lng s + t * (lng e - lng s) ->
  pointToLineSegmentDistance p s e = 0.
Proof.
  intros Ht Hlat Hlng.
  replace p with (pointOnSegment s e t).
  - now apply pointOnSegment_distance.
  - destruct p as [la lo]. cbn [lat lng] in Hlat, Hlng.
    unfold pointOnSegment. now rewrite Hlat, Hlng.
Qed.

Lemma pointToLineSegmentDistance_on_segment_witness :
  let s := {| lat := 10; lng := 20 |} in
  let e := {| lat := 11; lng := 22 |} in
  let p := {| lat := 41 / 4; lng := 41 / 2 |} in
  0 <= 1 / 4 <= 1 /\
  lat p = lat s + 1 / 4 * (lat e - lat s) /\
  lng p = lng s + 1 / 4 * (lng e - lng s) /\
  pointToLineSegmentDistance p s e = 0.
Proof.
  intros s e p.
  assert (Hq : 0 <= 1 / 4 <= 1) by lra.
  assert (Hlat : lat p = lat s + 1 / 4 * (lat e - lat s)) by (cbn; lra).
  assert (Hlng : lng p = lng s + 1 / 4 * (lng e - lng s)) by (cbn; lra).
  split; [ exact Hq | ]. split; [ exact Hlat | ]. split; [ exact Hlng | ].
  exact (pointToLineSegmentDistance_on_segment p s e (1 / 4) Hq Hlat Hlng).
Defined.

End DistanceFacts.

(** ** Paths along the planned line *)

Section PlannedLine.
Import JS RouteCompliance.
Local Open Scope R_scope.

Lemma loopIndices_In (n i : Z) : In i (loopIndices n) -> (0 <= i <= n)%Z.
Proof.
  unfold loopIndices. rewrite in_map_iff. intros (k & <- & Hk).
  apply in_seq in Hk. lia.
Qed.

(** X3.  Every waypoint of [interpolateRoute] lies on the straight segment
    from [start] to [end], and consecutive waypoints are one [n]-th of the
    way apart in latitude and in longitude. *)
Theorem interpolateRoute_evenly_spaced (start end_ : Coordinate) (n : Z) :
  (1 <= n)%Z ->
  (forall p, In p (interpolateRoute start end_ (Some n)) ->
     exists t, 0 <= t <= 1 /\ p = pointOnSegment start end_ t) /\
  (forall i p q, (0 <= i < n)%Z ->
     nth_error (interpolateRoute start end_ (Some n)) (Z.to_nat i) = Some p ->
     nth_error (interpolateRoute start end_ (Some n)) (S (Z.to_nat i)) =
       Some q ->
     lat q - lat p = (lat end_ - lat start) / IZR n /\
     lng q - lng p = (lng end_ - lng start) / IZR n).
Proof.
  intros Hn.
  assert (Hpos : 0 < IZR n) by (apply IZR_lt; lia).
  split.
  - intros p Hp. unfold interpolateRoute in Hp. cbn [orDefault] in Hp.
    apply in_map_iff in Hp. destruct Hp as (i & <- & Hi).
    apply loopIndices_In in Hi. exists (IZR i / IZR n). split.
    + split.
      * apply Rle_mult_inv_pos; [ apply IZR_le; lia | assumption ].
      * assert (Hle : IZR i <= IZR n) by (apply IZR_le; lia).
        apply (Rmult_le_reg_r (IZR n)); [ assumption | ].
        replace (IZR i / IZR n * IZR n) with (IZR i) by (field; lra). lra.
    + reflexivity.
  - intros i p q Hi Hp Hq.
    rewrite interpolateRoute_nth in Hp by lia.
    replace (S (Z.to_nat i)) with (Z.to_nat (i + 1)) in Hq by lia.
    rewrite interpolateRoute_nth in Hq by lia.
    injection Hp as <-. injection Hq as <-. cbn [lat lng].
    rewrite plus_IZR. split; field; lra.
Qed.

Lemma interpolateRoute_evenly_spaced_witness :
  let start := {| lat := 10; lng := 20 |} in
  let end_ := {| lat := 12; lng := 24 |} in
  let p := pointOnSegment start end_ (3 / 20) in
  let q := pointOnSegment start end_ (4 / 20) in
  nth_error (interpolateRoute start end_ (Some 20%Z)) 3 = Some p /\
  nth_error (interpolateRoute start end_ (Some 20%Z)) 4 = Some q /\
  (exists t, 0 <= t <= 1 /\ p = pointOnSegment start end_ t) /\
  lat q - lat p = (lat end_ - lat start) / 20 /\
  lng q - lng p = (lng end_ - lng start) / 20.
Proof.
  intros start end_ p q.
  assert (Hn : (1 <= 20)%Z) by lia.
  assert (Hi : (0 <= 3 < 20)%Z) by lia.
  assert (Hp : nth_error (interpolateRoute start end_ (Some 20%Z))
                 (Z.to_nat 3) = Some p)
    by (rewrite interpolateRoute_nth by lia; reflexivity).
  assert (Hq : nth_error (interpolateRoute start end_ (Some 20%Z))
                 (S (Z.to_nat 3)) = Some q)
    by (change (S (Z.to_nat 3)) with (Z.to_nat 4);
        rewrite interpolateRoute_nth by lia; reflexivity).
  split; [ exact Hp | ]. split; [ exact Hq | ]. split.
  - exact (proj1 (interpolateRoute_evenly_spaced start end_ 20 Hn) p
             (nth_error_In _ _ Hp)).
  - exact (proj2 (interpolateRoute_evenly_spaced start end_ 20 Hn)
             3%Z p q Hi Hp Hq).
Defined.

Lemma segments_nth (route : list Coordinate) :
  forall (i : nat) (a b : Coordinate),
    nth_error route i = Some a -> nth_error route (S i) = Some b ->
    In (a, b) (segments route).
Proof.
  unfold segments.
  induction route as [ | x route IH ]; intros i a b Ha Hb.
  - destruct i; discriminate Ha.
  - destruct i as [ | i ].
    + cbn in Ha, Hb. injection Ha as <-.
      destruct route as [ | y route ]; [ discriminate Hb | ].
      cbn in Hb. injection Hb as <-. now left.
    + cbn [nth_error] in Ha, Hb.
      destruct route as [ | y route ]; [ destruct i; discriminate Ha | ].
      right. exact (IH i a b Ha Hb).
Qed.

(** A point of the straight line from pickup to delivery has deviation 0:
    it lies on one of the 20 segments of the planned route. *)
Lemma minDistanceToRoute_on_line (s e : Coordinate) (t : R) :
  0 <= t <= 1 ->
  minDistanceToRoute (interpolateRoute s e (Some 20%Z))
    (pointOnSegment s e t) = Finite 0.
Proof.
  intros [Hlo Hhi].
  set (i := Z.min 19 (Zfloor (20 * t))).
  assert (Hi : (0 <= i <= 19)%Z).
  { unfold i. split; [ | apply Z.le_min_l ].
    apply Z.min_glb; [ lia | ]. apply Zfloor_lub. cbn. lra. }
  assert (Hbelow : IZR i <= 20 * t).
  { unfold i. apply Rle_trans with (IZR (Zfloor (20 * t))).
    - apply IZR_le, Z.le_min_r.
    - apply Zfloor_bound. }
  assert (Habove : 20 * t <= IZR i + 1).
  { unfold i. destruct (Z.min_spec 19 (Zfloor (20 * t))) as [[_ ->] | [_ ->]].
    - lra.
    - left. apply Zfloor_bound. }
  set (route := interpolateRoute s e (Some 20%Z)).
  assert (Ha : nth_error route (Z.to_nat i) = Some (pointOnSegment s e (IZR i / 20)))
    by (unfold route; rewrite interpolateRoute_nth by lia; reflexivity).
  assert (Hb : nth_error route (S (Z.to_nat i)) =
               Some (pointOnSegment s e (IZR (i + 1) / 20))).
  { replace (S (Z.to_nat i)) with (Z.to_nat (i + 1)) by lia.
    unfold route. rewrite interpolateRoute_nth by lia. reflexivity. }
  unfold minDistanceToRoute.
  apply (fold_xmin_zero _
           (fun seg => pointToLineSegmentDistance (pointOnSegment s e t)
                         (fst seg) (snd seg))).
  - intros seg. apply pointToLineSegmentDistance_nonneg.
  - exact I.
  - exists (pointOnSegment s e (IZR i / 20),
            pointOnSegment s e (IZR (i + 1) / 20)).
    split; [ exact (segments_nth route _ _ _ Ha Hb) | ].
    cbn [fst snd].
    replace (pointOnSegment s e t)
      with (pointOnSegment (pointOnSegment s e (IZR i / 20))
              (pointOnSegment s e (IZR (i + 1) / 20)) (20 * t - IZR i)).
    + apply pointOnSegment_distance. lra.
    + unfold pointOnSegment. cbn [lat lng]. rewrite plus_IZR.
      f_equal; field.
Qed.

(** A non-empty path whose points all have deviation 0. *)
Lemma calculateRouteCompliance_zero_deviation
    (path : list Coordinate) (pickup delivery : Coordinate)
    (toleranceMeters : option R) :
  path <> [] ->
  0 <= orDefault toleranceMeters 500 ->
  (forall p, In p path ->
     minDistanceToRoute (interpolateRoute pickup delivery (Some 20%Z)) p =
     Finite 0) ->
  calculateRouteCompliance path pickup delivery toleranceMeters =
  {| compliancePercent := 100;
     maxDeviation := Finite 0;
     averageDeviation := Finite 0 |}.
Proof.
  intros Hne Htol Hzero. unfold calculateRouteCompliance.
  destruct path as [ | p0 rest ]; [ now elim Hne | ].
  set (path := p0 :: rest) in *.
  unfold tallyPath. rewrite tallyPath_zero_deviation by assumption.
  cbn [compliantPoints totalDeviation maxDeviationSoFar xdiv xround plus].
  assert (Hlen : INR (length path) <> 0)
    by (apply not_0_INR; unfold path; cbn [length]; lia).
  replace (INR (length path) / INR (length path) * 100 * 10) with 1000
    by (field; assumption).
  replace (0 / INR (length path)) with 0 by (field; assumption).
  rewrite (Math_round_integer 1000), (Math_round_integer 0).
  f_equal. lra.
Qed.

(** X4.  In exact arithmetic, a non-empty path whose points all lie on the
    straight line from the pickup to the delivery, anywhere on it, is 100
    percent compliant with deviations 0, for every tolerance that is not
    negative.  (Over the reals: in binary64 a point of the line can be a
    rounding residue away from the route, which a tolerance of 0 does not
    absorb.) *)
Theorem calculateRouteCompliance_on_line
    (path : list Coordinate) (pickup delivery : Coordinate)
    (toleranceMeters : option R) :
  path <> [] ->
  0 <= orDefault toleranceMeters 500 ->
  (forall p, In p path ->
     exists t, 0 <= t <= 1 /\ p = pointOnSegment pickup delivery t) ->
  calculateRouteCompliance path pickup delivery toleranceMeters =
  {| compliancePercent := 100;
     maxDeviation := Finite 0;
     averageDeviation := Finite 0 |}.
Proof.
  intros Hne Htol Hline.
  apply calculateRouteCompliance_zero_deviation; try assumption.
  intros p Hp. destruct (Hline p Hp) as (t & Ht & ->).
  now apply minDistanceToRoute_on_line.
Qed.

Lemma calculateRouteCompliance_on_line_witness :
  let pickup := {| lat := 10; lng := 20 |} in
  let delivery := {| lat := 12; lng := 24 |} in
  calculateRouteCompliance
    [ pointOnSegment pickup delivery (1 / 3);
      pointOnSegment pickup delivery (7 / 9) ] pickup delivery None =
  {| compliancePercent := 100;
     maxDeviation := Finite 0;
     averageDeviation := Finite 0 |}.
Proof.
  intros pickup delivery.
  apply calculateRouteCompliance_on_line.
  - discriminate.
  - cbn [orDefault]. lra.
  - intros p [<- | [<- | []]].
    + exists (1 / 3). split; [ lra | reflexivity ].
    + exists (7 / 9). split; [ lra | reflexivity ].
Defined.

End PlannedLine.

(** ** The shape of a compliance result *)

Section ComplianceShape.
Import JS RouteCompliance.
Local Open Scope R_scope.

Variables (expectedStart expectedEnd : Coordinate).

Local Abbreviation expectedRoute :=
  (interpolateRoute expectedStart expectedEnd (Some 20%Z)).

(** The loop keeps the count below the number of points seen, and the sum of
    the deviations below that number times the largest of them. *)
Lemma tally_invariant (tol : R) (path : list Coordinate) :
  forall (seen count : nat) (total largest : R),
    (count <= seen)%nat -> 0 <= total <= INR seen * largest -> 0 <= largest ->
    exists count' total' largest',
      fold_left (tallyPoint expectedRoute tol) path
        {| compliantPoints := count;
           totalDeviation := Finite total;
           maxDeviationSoFar := Finite largest |} =
      {| compliantPoints := count';
         totalDeviation := Finite total';
         maxDeviationSoFar := Finite largest' |} /\
      (count' <= seen + length path)%nat /\
      0 <= total' <= INR (seen + length path) * largest' /\
      0 <= largest'.
Proof.
  induction path as [ | p path IH ];
    intros seen count total largest Hcount Htotal Hlargest.
  - exists count, total, largest. cbn [fold_left length].
    rewrite Nat.add_0_r. repeat split; tauto || assumption.
  - cbn [fold_left length]. unfold tallyPoint at 2.
    destruct (minDistanceToRoute_finite expectedStart expectedEnd p)
      as (d & -> & Hd).
    cbn [compliantPoints totalDeviation maxDeviationSoFar xle xadd xmax].
    unfold Math_max.
    pose proof (Rmax_l largest d) as Hl. pose proof (Rmax_r largest d) as Hr.
    pose proof (pos_INR seen) as Hseen.
    assert (Hsum : 0 <= total + d <= INR (S seen) * Rmax largest d).
    { rewrite S_INR. split; [ lra | ].
      assert (INR seen * largest <= INR seen * Rmax largest d)
        by (apply Rmult_le_compat_l; assumption).
      lra. }
    assert (Hmax : 0 <= Rmax largest d) by lra.
    replace (seen + S (length path))%nat with (S seen + length path)%nat
      by lia.
    destruct (Rle_dec d tol); apply IH; lia || assumption.
Qed.

(** The percentage is a rounded number of thousandths of the path, between
    none and all of them. *)
Lemma compliancePercent_range (actualPath : list Coordinate)
    (toleranceMeters : option R) :
  0 <= compliancePercent
         (calculateRouteCompliance actualPath expectedStart expectedEnd
            toleranceMeters) <= 100.
Proof.
  unfold calculateRouteCompliance.
  destruct actualPath as [ | p0 rest ]; [ cbn; lra | ].
  set (path := p0 :: rest).
  destruct (tally_invariant (orDefault toleranceMeters 500) path 0 0 0 0)
    as (count & total & largest & Hfold & Hc & _ & _);
    [ lia | cbn; lra | lra | ].
  rewrite Nat.add_0_l in Hc. unfold tallyPath. rewrite Hfold.
  cbn [compliancePercent compliantPoints].
  assert (Hn : 0 < INR (length path))
    by (apply lt_0_INR; unfold path; cbn [length]; lia).
  assert (Hcn : INR count <= INR (length path)) by now apply le_INR.
  pose proof (pos_INR count) as Hc0.
  assert (Hratio : 0 <= INR count / INR (length path) <= 1).
  { split.
    - apply Rle_mult_inv_pos; assumption.
    - apply (Rmult_le_reg_r (INR (length path))); [ assumption | ].
      replace (INR count / INR (length path) * INR (length path))
        with (INR count) by (field; lra).
      lra. }
  set (ratio := INR count / INR (length path)) in *.
  assert (Hlow : 0 <= Math_round (ratio * 100 * 10))
    by (apply Math_round_nonneg; lra).
  assert (Hhigh : Math_round (ratio * 100 * 10) <= 1000)
    by (rewrite <- (Math_round_integer 1000); apply Math_round_le; lra).
  lra.
Qed.


(** The loop under two tolerances: the larger one counts at least as many
    points, and the deviations are the same. *)
Lemma tally_tolerance (tol1 tol2 : R) (path : list Coordinate) :
  tol1 <= tol2 ->
  forall acc1 acc2 : Tally,
    (compliantPoints acc1 <= compliantPoints acc2)%nat ->
    totalDeviation acc1 = totalDeviation acc2 ->
    maxDeviationSoFar acc1 = maxDeviationSoFar acc2 ->
    let end1 := fold_left (tallyPoint expectedRoute tol1) path acc1 in
    let end2 := fold_left (tallyPoint expectedRoute tol2) path acc2 in
    (compliantPoints end1 <= compliantPoints end2)%nat /\
    totalDeviation end1 = totalDeviation end2 /\
    maxDeviationSoFar end1 = maxDeviationSoFar end2.
Proof.
  intros Htol.
  induction path as [ | p path IH ]; intros acc1 acc2 Hc Ht Hm;
    cbn [fold_left].
  - repeat split; assumption.
  - apply IH; unfold tallyPoint;
      cbn [compliantPoints totalDeviation maxDeviationSoFar].
    + destruct (minDistanceToRoute expectedRoute p) as [d | ]; cbn [xle];
        [ | assumption ].
      destruct (Rle_dec d tol1), (Rle_dec d tol2); lia || lra.
    + now rewrite Ht.
    + now rewrite Hm.
Qed.

(** X6.  Raising the tolerance never lowers the compliance percentage, and
    it leaves the two deviations unchanged. *)
Theorem calculateRouteCompliance_tolerance_monotone
    (actualPath : list Coordinate) (tol1 tol2 : R) :
  tol1 <= tol2 ->
  let result1 :=
    calculateRouteCompliance actualPath expectedStart expectedEnd (Some tol1) in
  let result2 :=
    calculateRouteCompliance actualPath expectedStart expectedEnd (Some tol2) in
  compliancePercent result1 <= compliancePercent result2 /\
  maxDeviation result1 = maxDeviation result2 /\
  averageDeviation result1 = averageDeviation result2.
Proof.
  intros Htol. unfold calculateRouteCompliance. cbn [orDefault].
  destruct actualPath as [ | p0 rest ].
  - cbn. repeat split; lra || reflexivity.
  - set (path := p0 :: rest).
    destruct (tally_tolerance tol1 tol2 path Htol
                (mkTally 0 (Finite 0) (Finite 0))
                (mkTally 0 (Finite 0) (Finite 0)))
      as (Hc & Ht & Hm); [ cbn; lia | reflexivity | reflexivity | ].
    unfold tallyPath.
    cbn [compliancePercent maxDeviation averageDeviation].
    rewrite Ht, Hm. split; [ | split; reflexivity ].
    assert (Hn : 0 < INR (length path))
      by (apply lt_0_INR; unfold path; cbn [length]; lia).
    apply le_INR in Hc.
    apply Rmult_le_compat_r; [ lra | ].
    apply Math_round_le.
    apply Rmult_le_compat_r; [ lra | ].
    apply Rmult_le_compat_r; [ lra | ].
    apply Rmult_le_compat_r; [ | assumption ].
    left. now apply Rinv_0_lt_compat.
Qed.

End ComplianceShape.

Section ComplianceOrder.
Import JS RouteCompliance.
Local Open Scope R_scope.

Lemma calculateRouteCompliance_tolerance_monotone_witness :
  let pickup := {| lat := 10; lng := 20 |} in
  let delivery := {| lat := 12; lng := 24 |} in
  let path := [ {| lat := 1001 / 100; lng := 20 |};
                {| lat := 11; lng := 22 |} ] in
  100 <= 500 /\
  compliancePercent (calculateRouteCompliance path pickup delivery (Some 100))
  <= compliancePercent
       (calculateRouteCompliance path pickup delivery (Some 500)) /\
  maxDeviation (calculateRouteCompliance path pickup delivery (Some 100)) =
  maxDeviation (calculateRouteCompliance path pickup delivery (Some 500)).
Proof.
  intros pickup delivery path.
  assert (Htol : 100 <= 500) by lra.
  split; [ exact Htol | ].
  pose proof (calculateRouteCompliance_tolerance_monotone
                pickup delivery path 100 500 Htol) as (Hp & Hm & _).
  split; [ exact Hp | exact Hm ].
Defined.

(** A loop whose step commutes gives the same result on a permuted list. *)
Lemma fold_left_permutation (A B : Type) (f : A -> B -> A) :
  (forall a x y, f (f a x) y = f (f a y) x) ->
  forall l l', Permutation l l' ->
  forall a, fold_left f l a = fold_left f l' a.
Proof.
  intros Hcomm l l' Hperm.
  induction Hperm as [ | x l l' _ IH | x y l | l l' l'' _ IH1 _ IH2 ];
    intros a; cbn [fold_left].
  - reflexivity.
  - apply IH.
  - now rewrite Hcomm.
  - now rewrite IH1.
Qed.

Lemma tallyPoint_commute (route : list Coordinate) (tol : R) (acc : Tally)
    (p q : Coordinate) :
  tallyPoint route tol (tallyPoint route tol acc p) q =
  tallyPoint route tol (tallyPoint route tol acc q) p.
Proof.
  unfold tallyPoint.
  cbn [compliantPoints totalDeviation maxDeviationSoFar].
  destruct (minDistanceToRoute route p) as [d1 | ],
           (minDistanceToRoute route q) as [d2 | ],
           (totalDeviation acc) as [t | ],
           (maxDeviationSoFar acc) as [m | ];
    cbn [xle xadd xmax]; f_equal;
    try (destruct (Rle_dec d1 tol), (Rle_dec d2 tol); reflexivity);
    try (destruct (Rle_dec d1 tol); reflexivity);
    try (destruct (Rle_dec d2 tol); reflexivity);
    try (f_equal; ring);
    try reflexivity.
  all: unfold Math_max; f_equal; rewrite <- !Rmax_assoc; f_equal;
    apply Rmax_comm.
Qed.

(** X7.  The result does not depend on the order of the points of the path
    (in exact arithmetic): a permuted path has the same percentage and the
    same deviations. *)
Theorem calculateRouteCompliance_permutation
    (path path' : list Coordinate) (expectedStart expectedEnd : Coordinate)
    (toleranceMeters : option R) :
  Permutation path path' ->
  calculateRouteCompliance path expectedStart expectedEnd toleranceMeters =
  calculateRouteCompliance path' expectedStart expectedEnd toleranceMeters.
Proof.
  intros Hperm. unfold calculateRouteCompliance, tallyPath.
  rewrite (fold_left_permutation _ _ _
             (tallyPoint_commute _ (orDefault toleranceMeters 500))
             path path' Hperm).
  rewrite (Permutation_length Hperm).
  destruct path as [ | p rest ], path' as [ | p' rest' ]; try reflexivity.
  - apply Permutation_nil in Hperm. discriminate Hperm.
  - apply Permutation_sym, Permutation_nil in Hperm. discriminate Hperm.
Qed.

Lemma calculateRouteCompliance_permutation_witness :
  let pickup := {| lat := 10; lng := 20 |} in
  let delivery := {| lat := 12; lng := 24 |} in
  let p := {| lat := 1001 / 100; lng := 20 |} in
  let q := {| lat := 11; lng := 22 |} in
  Permutation [p; q] [q; p] /\
  calculateRouteCompliance [p; q] pickup delivery None =
  calculateRouteCompliance [q; p] pickup delivery None.
Proof.
  intros pickup delivery p q.
  assert (Hperm : Permutation [p; q] [q; p]) by apply perm_swap.
  split; [ exact Hperm | ].
  exact (calculateRouteCompliance_permutation [p; q] [q; p] pickup delivery
           None Hperm).
Defined.

(** X8.  The route the map draws is the route the compliance is measured
    against: with its default the client's [interpolatePlannedRoute] gives
    the coordinates of the server's [interpolateRoute] with 20 intervals,
    and the two agree for every explicit [numPoints]. *)
Theorem interpolatePlannedRoute_agrees
    (startLat startLng endLat endLng : R) (numPoints : Z) :
  let onServer n :=
    map (fun p => (lat p, lng p))
      (interpolateRoute {| lat := startLat; lng := startLng |}
         {| lat := endLat; lng := endLng |} n) in
  RouteConfrontationMap.interpolatePlannedRoute
    startLat startLng endLat endLng None = onServer (Some 20%Z) /\
  RouteConfrontationMap.interpolatePlannedRoute
    startLat startLng endLat endLng (Some numPoints) =
  onServer (Some numPoints).
Proof.
  intros onServer. unfold onServer,
    RouteConfrontationMap.interpolatePlannedRoute, interpolateRoute.
  cbn [orDefault]. rewrite !map_map. split; reflexivity.
Qed.

End ComplianceOrder.

(** ** What the detector reports on any track *)

Section DetectorInvariants.
Import JS RouteConfrontationMap Examples StopReport.
Local Open Scope R_scope.

Variables (destinationLat destinationLng : option R).
Variables (stopThresholdMinutes distanceThresholdMeters : R).
Variable gpsPoints : list GpsRoutePoint.

Local Abbreviation visit :=
  (visitPair destinationLat destinationLng
     stopThresholdMinutes distanceThresholdMeters).
Local Abbreviation close :=
  (closeRun destinationLat destinationLng stopThresholdMinutes).
Local Abbreviation reported :=
  (reports gpsPoints destinationLat destinationLng stopThresholdMinutes).

Local Abbreviation fromTrack :=
  (speaksOfTrack gpsPoints destinationLat destinationLng
     stopThresholdMinutes).

Lemma last_In (l : list GpsRoutePoint) (d : GpsRoutePoint) :
  In (last l d) l \/ last l d = d.
Proof.
  induction l as [ | a [ | b l ] IH ].
  - now right.
  - left. now left.
  - destruct IH as [Hin | Heq].
    + left. right. exact Hin.
    + right. exact Heq.
Qed.

Lemma closeRun_reported (st : Detector) :
  fromTrack st -> Forall reported (close st).
Proof.
  intros (Hstops & Hstart & Hpoints). unfold closeRun.
  destruct (stopStart st) as [first | ] eqn:Hfirst; [ | assumption ].
  destruct (1 <? length (stopPoints st))%nat; [ | assumption ].
  cbv zeta. destruct (Rge_dec _ stopThresholdMinutes) as [Hlong | _];
    [ | assumption ].
  destruct (isAtDestination destinationLat destinationLng first) eqn:Hat;
    cbn [negb]; [ assumption | ].
  apply Forall_app. split; [ assumption | ].
  constructor; [ | constructor ].
  exists first, (last (stopPoints st) first).
  repeat split; try assumption.
  - now apply Hstart.
  - destruct (last_In (stopPoints st) first) as [Hin | ->].
    + now apply Hpoints.
    + now apply Hstart.
Qed.

Lemma visitPair_fromTrack (st : Detector) (prev curr : GpsRoutePoint) :
  In prev gpsPoints -> In curr gpsPoints ->
  fromTrack st -> fromTrack (visit st (prev, curr)).
Proof.
  intros Hprev Hcurr Hst. pose proof Hst as (Hstops & Hstart & Hpoints).
  unfold visitPair.
  destruct (Rlt_dec _ distanceThresholdMeters) as [_ | _].
  - destruct (stopStart st) as [first | ] eqn:Hfirst.
    + repeat split; cbn [stops stopStart stopPoints].
      * assumption.
      * intros f Hf. apply Hstart. congruence.
      * intros p Hp. apply in_app_or in Hp.
        destruct Hp as [Hp | [<- | []]]; [ now apply Hpoints | assumption ].
    + repeat split; cbn [stops stopStart stopPoints].
      * assumption.
      * intros f Hf. congruence.
      * intros p [<- | [<- | []]]; assumption.
  - repeat split; cbn [stops stopStart stopPoints].
    + now apply closeRun_reported.
    + discriminate.
    + intros p [].
Qed.

Lemma consecutivePairs_In (l : list GpsRoutePoint) (a b : GpsRoutePoint) :
  In (a, b) (consecutivePairs l) -> In a l /\ In b l.
Proof.
  unfold consecutivePairs. intros Hin. split.
  - exact (in_combine_l _ _ _ _ Hin).
  - apply in_combine_r in Hin. destruct l; [ destruct Hin | now right ].
Qed.

Lemma fold_fromTrack (pairs : list (GpsRoutePoint * GpsRoutePoint)) :
  (forall a b, In (a, b) pairs -> In a gpsPoints /\ In b gpsPoints) ->
  forall st, fromTrack st -> fromTrack (fold_left visit pairs st).
Proof.
  induction pairs as [ | [a b] pairs IH ]; intros Hpairs st Hst;
    cbn [fold_left]; [ assumption | ].
  apply IH.
  - intros a' b' Hin. apply Hpairs. now right.
  - destruct (Hpairs a b) as [Ha Hb]; [ now left | ].
    now apply visitPair_fromTrack.
Qed.

Lemma closeRun_length (st : Detector) :
  (2 * length (close st) <= runsStarted st + 
     match stopStart st with Some _ => 1 | None => 0 end)%nat.
Proof.
  unfold closeRun, runsStarted.
  destruct (stopStart st) as [first | ]; [ | lia ].
  destruct (1 <? length (stopPoints st))%nat; [ | lia ].
  cbv zeta. destruct (Rge_dec _ stopThresholdMinutes); [ | lia ].
  destruct (negb _); [ | lia ].
  rewrite length_app. cbn [length]. lia.
Qed.

Lemma visitPair_runsStarted (st : Detector)
    (pair : GpsRoutePoint * GpsRoutePoint) :
  (runsStarted (visit st pair) <= S (runsStarted st))%nat.
Proof.
  destruct pair as [prev curr]. unfold visitPair.
  destruct (Rlt_dec _ distanceThresholdMeters) as [_ | _].
  - unfold runsStarted. destruct (stopStart st); cbn [stops stopStart]; lia.
  - pose proof (closeRun_length st) as Hlen.
    unfold runsStarted in *. cbn [stops stopStart].
    destruct (stopStart st); lia.
Qed.

Lemma fold_runsStarted (pairs : list (GpsRoutePoint * GpsRoutePoint)) :
  forall st,
    (runsStarted (fold_left visit pairs st) <=
     runsStarted st + length pairs)%nat.
Proof.
  induction pairs as [ | pair pairs IH ]; intros st; cbn [fold_left length].
  - lia.
  - pose proof (IH (visit st pair)) as Hrest.
    pose proof (visitPair_runsStarted st pair). lia.
Qed.

End DetectorInvariants.

Section DetectorTheorems.
Import JS RouteConfrontationMap Examples StopReport.
Local Open Scope R_scope.

Variables (destinationLat destinationLng : option R).
Variables (stopThresholdMinutes distanceThresholdMeters : option R).

Local Abbreviation minutes := (orDefault stopThresholdMinutes 10).
Local Abbreviation meters := (orDefault distanceThresholdMeters 100).
Local Abbreviation detect gpsPoints :=
  (detectUnscheduledStops gpsPoints destinationLat destinationLng
     stopThresholdMinutes distanceThresholdMeters).

(** The early return for a short track agrees with the loop, which then has
    no pair to visit. *)
Lemma detect_as_fold (gpsPoints : list GpsRoutePoint) :
  detect gpsPoints =
  closeRun destinationLat destinationLng minutes
    (fold_left (visitPair destinationLat destinationLng minutes meters)
       (consecutivePairs gpsPoints)
       {| stops := []; stopStart := None; stopPoints := [] |}).
Proof.
  unfold detectUnscheduledStops.
  destruct gpsPoints as [ | a [ | b l ] ]; reflexivity.
Qed.

Lemma detect_reports (gpsPoints : list GpsRoutePoint) :
  Forall (reports gpsPoints destinationLat destinationLng minutes)
    (detect gpsPoints).
Proof.
  rewrite detect_as_fold. apply closeRun_reported, fold_fromTrack.
  - intros a b. apply consecutivePairs_In.
  - repeat split; cbn [stops stopStart stopPoints].
    + constructor.
    + discriminate.
    + intros p [].
Qed.

(** X9.  Every stop the detector returns is located at a sample of the
    track, with that sample's coordinates and timestamp, and its duration is
    at least every whole number of minutes that does not exceed the
    threshold (at least 10 with the default threshold). *)
Theorem detectUnscheduledStops_stop_at_sample
    (gpsPoints : list GpsRoutePoint) (stop : UnscheduledStop) :
  In stop (detect gpsPoints) ->
  (exists first, In first gpsPoints /\
     stopLatitude stop = latitude first /\
     stopLongitude stop = longitude first /\
     startTime stop = timestamp first) /\
  (forall whole : Z, IZR whole <= minutes -> IZR whole <= duration stop).
Proof.
  intros Hin.
  pose proof (detect_reports gpsPoints) as Hall.
  rewrite Forall_forall in Hall.
  destruct (Hall stop Hin) as (first & lastOfRun & Hf & _ & Hlong & _ & ->).
  split.
  - exists first. repeat split; assumption || reflexivity.
  - intros whole Hwhole. cbn [stopAt duration].
    rewrite <- (Math_round_integer whole). apply Math_round_le. lra.
Qed.

End DetectorTheorems.

Section DetectorDestination.
Import JS RouteConfrontationMap Examples StopReport.
Local Open Scope R_scope.

(** X10.  With a destination whose two coordinates are non-zero, no stop the
    detector returns is less than 200 m from the destination. *)
Theorem detectUnscheduledStops_away_from_destination
    (gpsPoints : list GpsRoutePoint) (destinationLat destinationLng : R)
    (stopThresholdMinutes distanceThresholdMeters : option R)
    (stop : UnscheduledStop) :
  destinationLat <> 0 -> destinationLng <> 0 ->
  In stop (detectUnscheduledStops gpsPoints
             (Some destinationLat) (Some destinationLng)
             stopThresholdMinutes distanceThresholdMeters) ->
  200 <= calculateDistance (stopLatitude stop) (stopLongitude stop)
           destinationLat destinationLng.
Proof.
  intros Hlat Hlng Hin.
  pose proof (detect_reports (Some destinationLat) (Some destinationLng)
                stopThresholdMinutes distanceThresholdMeters gpsPoints)
    as Hall.
  rewrite Forall_forall in Hall.
  destruct (Hall stop Hin) as (first & lastOfRun & _ & _ & _ & Hat & ->).
  rewrite isAtDestination_nonzero in Hat by assumption.
  cbn [stopAt stopLatitude stopLongitude].
  destruct (Rlt_dec _ 200) as [_ | Hfar]; [ discriminate Hat | lra ].
Qed.

Lemma dwellTrack_far_reported :
  detectUnscheduledStops (dwellTrack 20) (Some farLat) (Some 20) None None =
  [ stopAt (sample 100000 20 0) 15 ].
Proof.
  unfold dwellTrack.
  rewrite <- (app_nil_r [ sample 100000 20 0; sample 100003 20 5;
                          sample 100001 20 10; sample 100002 20 15 ]).
  rewrite detect_single_run;
    [ | apply dwellTrack_stationary | now left ].
  rewrite isAtDestination_nonzero by (unfold farLat; lra).
  pose proof (dwellTrack_far_destination 20) as Hfar.
  cbn [last sample timestamp orDefault latitude longitude] in *. cbv zeta.
  change (15 * 60000 - 0 * 60000)%Z with 900000%Z.
  replace (900000 / 60000) with 15 by field.
  rewrite (Math_round_integer 15).
  destruct (Rge_dec 15 10) as [_ | Hn]; [ | lra ].
  destruct (Rlt_dec _ 200) as [Hlt | _]; [ lra | reflexivity ].
Qed.

Lemma detectUnscheduledStops_stop_at_sample_witness :
  let stop := stopAt (sample 100000 20 0) 15 in
  In stop (detectUnscheduledStops (dwellTrack 20) (Some farLat) (Some 20)
             None None) /\
  (exists first, In first (dwellTrack 20) /\
     stopLatitude stop = latitude first /\
     stopLongitude stop = longitude first /\
     startTime stop = timestamp first) /\
  IZR 10 <= duration stop.
Proof.
  intros stop.
  assert (Hin : In stop (detectUnscheduledStops (dwellTrack 20)
                           (Some farLat) (Some 20) None None))
    by (rewrite dwellTrack_far_reported; now left).
  assert (Hten : IZR 10 <= orDefault (@None R) 10) by (cbn; lra).
  split; [ exact Hin | ].
  pose proof (detectUnscheduledStops_stop_at_sample
                (Some farLat) (Some 20) None None (dwellTrack 20) stop Hin)
    as [Hsample Hduration].
  split; [ exact Hsample | exact (Hduration 10%Z Hten) ].
Defined.

Lemma detectUnscheduledStops_away_from_destination_witness :
  let stop := stopAt (sample 100000 20 0) 15 in
  farLat <> 0 /\ 20 <> 0 /\
  In stop (detectUnscheduledStops (dwellTrack 20) (Some farLat) (Some 20)
             None None) /\
  200 <= calculateDistance (stopLatitude stop) (stopLongitude stop) farLat 20.
Proof.
  intros stop.
  assert (Hlat : farLat <> 0) by (unfold farLat; lra).
  assert (Hlng : 20 <> 0) by lra.
  assert (Hin : In stop (detectUnscheduledStops (dwellTrack 20)
                           (Some farLat) (Some 20) None None))
    by (rewrite dwellTrack_far_reported; now left).
  split; [ exact Hlat | ]. split; [ exact Hlng | ]. split; [ exact Hin | ].
  exact (detectUnscheduledStops_away_from_destination
           (dwellTrack 20) farLat 20 None None stop Hlat Hlng Hin).
Defined.

End DetectorDestination.

Section DetectorStructure.
Import JS RouteConfrontationMap Examples StopReport.
Local Open Scope R_scope.

Variables (destinationLat destinationLng : option R).
Variables (stopThresholdMinutes distanceThresholdMeters : option R).

Local Abbreviation minutes := (orDefault stopThresholdMinutes 10).
Local Abbreviation meters := (orDefault distanceThresholdMeters 100).
Local Abbreviation detect gpsPoints :=
  (detectUnscheduledStops gpsPoints destinationLat destinationLng
     stopThresholdMinutes distanceThresholdMeters).
Local Abbreviation visit :=
  (visitPair destinationLat destinationLng minutes meters).
Local Abbreviation close :=
  (closeRun destinationLat destinationLng minutes).
Local Abbreviation idle :=
  {| stops := []; stopStart := None; stopPoints := [] |}.

Lemma consecutivePairs_length (l : list GpsRoutePoint) :
  length (consecutivePairs l) = (length l - 1)%nat.
Proof.
  unfold consecutivePairs. rewrite length_combine.
  destruct l as [ | a l ]; cbn [tl length]; lia.
Qed.

(** X11.  A stop needs a run of at least two samples, and two runs are
    separated by a jump: a track of [n] samples has at most [n / 2] stops. *)
Theorem detectUnscheduledStops_count (gpsPoints : list GpsRoutePoint) :
  (2 * length (detect gpsPoints) <= length gpsPoints)%nat.
Proof.
  destruct gpsPoints as [ | a l ]; [ cbn; lia | ].
  rewrite detect_as_fold.
  pose proof (fold_runsStarted destinationLat destinationLng minutes meters
                (consecutivePairs (a :: l)) idle) as Hfold.
  rewrite consecutivePairs_length in Hfold.
  remember (fold_left visit (consecutivePairs (a :: l)) idle) as st eqn:Hst.
  pose proof (closeRun_length destinationLat destinationLng minutes st)
    as Hclose.
  unfold runsStarted in Hfold, Hclose. cbn [length stops stopStart] in *.
  destruct (stopStart st); lia.
Qed.

(** X12.  A track on which no two consecutive samples are near each other
    has no stops, whatever the timestamps. *)
Theorem detectUnscheduledStops_moving (gpsPoints : list GpsRoutePoint) :
  Forall (fun pair => ~ near meters pair) (consecutivePairs gpsPoints) ->
  detect gpsPoints = [].
Proof.
  intros Hfar. rewrite detect_as_fold.
  assert (Hidle : fold_left visit (consecutivePairs gpsPoints) idle = idle).
  { induction (consecutivePairs gpsPoints) as [ | [a b] pairs IH ];
      [ reflexivity | ].
    inversion Hfar as [ | ? ? Hab Hrest ]. subst. cbn [fold_left].
    rewrite visitPair_far by assumption. now apply IH. }
  now rewrite Hidle.
Qed.

(** Stops found so far are only carried along. *)
Lemma closeRun_prefix (found : list UnscheduledStop) (st : Detector) :
  close {| stops := found ++ stops st;
           stopStart := stopStart st;
           stopPoints := stopPoints st |} =
  found ++ close st.
Proof.
  unfold closeRun. cbn [stops stopStart stopPoints].
  destruct (stopStart st) as [first | ]; [ | reflexivity ].
  destruct (1 <? length (stopPoints st))%nat; [ | reflexivity ].
  cbv zeta. destruct (Rge_dec _ minutes); [ | reflexivity ].
  destruct (negb _); [ | reflexivity ].
  now rewrite app_assoc.
Qed.

Lemma fold_prefix (found : list UnscheduledStop)
    (pairs : list (GpsRoutePoint * GpsRoutePoint)) :
  forall st,
    fold_left visit pairs
      {| stops := found ++ stops st;
         stopStart := stopStart st;
         stopPoints := stopPoints st |} =
    let st' := fold_left visit pairs st in
    {| stops := found ++ stops st';
       stopStart := stopStart st';
       stopPoints := stopPoints st' |}.
Proof.
  induction pairs as [ | [prev curr] pairs IH ]; intros st;
    cbn [fold_left]; [ reflexivity | ].
  rewrite <- IH. f_equal.
  destruct st as [found0 start0 points0].
  unfold visitPair. cbn [stops stopStart stopPoints].
  destruct (Rlt_dec _ meters).
  - destruct start0; reflexivity.
  - cbn [stops stopStart stopPoints]. f_equal.
    exact (closeRun_prefix found (mkDetector found0 start0 points0)).
Qed.

Lemma consecutivePairs_app (l1 : list GpsRoutePoint) (a b : GpsRoutePoint)
    (l2 : list GpsRoutePoint) :
  consecutivePairs ((l1 ++ [a]) ++ b :: l2) =
  consecutivePairs (l1 ++ [a]) ++ (a, b) :: consecutivePairs (b :: l2).
Proof.
  induction l1 as [ | x l1 IH ]; [ reflexivity | ].
  destruct l1 as [ | y l1 ].
  - reflexivity.
  - change (((x :: y :: l1) ++ [a]) ++ b :: l2)
      with (x :: y :: (l1 ++ [a]) ++ b :: l2).
    change ((x :: y :: l1) ++ [a]) with (x :: y :: l1 ++ [a]).
    rewrite !consecutivePairs_cons.
    change (y :: (l1 ++ [a]) ++ b :: l2)
      with (((y :: l1) ++ [a]) ++ b :: l2).
    rewrite IH. reflexivity.
Qed.

(** X13.  The detector works run by run: when a track is cut between two
    consecutive samples that are not near each other, the stops of the whole
    track are the stops of the first part followed by those of the second. *)
Theorem detectUnscheduledStops_app (l1 : list GpsRoutePoint)
    (a b : GpsRoutePoint) (l2 : list GpsRoutePoint) :
  ~ near meters (a, b) ->
  detect ((l1 ++ [a]) ++ b :: l2) =
  detect (l1 ++ [a]) ++ detect (b :: l2).
Proof.
  intros Hjump. rewrite !detect_as_fold.
  rewrite consecutivePairs_app, fold_left_app. cbn [fold_left].
  rewrite visitPair_far by assumption.
  set (found := close (fold_left visit (consecutivePairs (l1 ++ [a])) idle)).
  pose proof (fold_prefix found (consecutivePairs (b :: l2)) idle) as Hfold.
  cbn [stops stopStart stopPoints] in Hfold. rewrite app_nil_r in Hfold.
  rewrite Hfold. cbv zeta. apply closeRun_prefix.
Qed.

End DetectorStructure.

Section DetectorComparison.
Import JS RouteConfrontationMap Examples StopReport.
Local Open Scope R_scope.

Lemma detectUnscheduledStops_moving_witness :
  let track := [ sample 100000 20 0; sample 100100 20 30;
                 sample 100200 20 60 ] in
  Forall (fun pair => ~ near (orDefault None 100) pair)
    (consecutivePairs track) /\
  detectUnscheduledStops track None None None None = [].
Proof.
  intros track.
  assert (Hfar : Forall (fun pair => ~ near (orDefault None 100) pair)
                   (consecutivePairs track))
    by (repeat constructor; apply sample_far; cbn; lra || lia).
  split; [ exact Hfar | ].
  exact (detectUnscheduledStops_moving None None None None track Hfar).
Defined.

Lemma detectUnscheduledStops_app_witness :
  let firstPart := [ sample 100000 20 0; sample 100003 20 5;
                     sample 100001 20 10 ] in
  let a := sample 100002 20 15 in
  let b := sample 100092 20 20 in
  let rest := [ sample 100093 20 40 ] in
  ~ near (orDefault None 100) (a, b) /\
  detectUnscheduledStops ((firstPart ++ [a]) ++ b :: rest)
    None None None None =
  detectUnscheduledStops (firstPart ++ [a]) None None None None ++
  detectUnscheduledStops (b :: rest) None None None None.
Proof.
  intros firstPart a b rest.
  assert (Hjump : ~ near (orDefault None 100) (a, b))
    by (apply sample_far; cbn; lra || lia).
  split; [ exact Hjump | ].
  exact (detectUnscheduledStops_app None None None None firstPart a b rest
           Hjump).
Defined.

Variable distanceThresholdMeters : option R.

Local Abbreviation meters := (orDefault distanceThresholdMeters 100).

(** Two settings of the detector, the second reporting every run the first
    one reports: the loop of the first finds a part of what the loop of the
    second finds. *)
Section Simulation.

Variables (lat1 lng1 lat2 lng2 : option R) (thr1 thr2 : R).

Hypothesis weaker :
  forall (first : GpsRoutePoint) (minutes : R),
    minutes >= thr1 -> isAtDestination lat1 lng1 first = false ->
    minutes >= thr2 /\ isAtDestination lat2 lng2 first = false.

Lemma closeRun_incl (found1 found2 : list UnscheduledStop)
    (start : option GpsRoutePoint) (points : list GpsRoutePoint) :
  incl found1 found2 ->
  incl (closeRun lat1 lng1 thr1 (mkDetector found1 start points))
       (closeRun lat2 lng2 thr2 (mkDetector found2 start points)).
Proof.
  intros Hincl. unfold closeRun. cbn [stops stopStart stopPoints].
  destruct start as [first | ]; [ | assumption ].
  destruct (1 <? length points)%nat; [ | assumption ].
  cbv zeta.
  set (minutes := IZR (timestamp (last points first) - timestamp first)
                  / 60000).
  assert (Hkeep : incl found1
            (if Rge_dec minutes thr2
             then if negb (isAtDestination lat2 lng2 first)
                  then found2 ++ [ {| stopLatitude := latitude first;
                                      stopLongitude := longitude first;
                                      startTime := timestamp first;
                                      duration := Math_round minutes |} ]
                  else found2
             else found2)).
  { destruct (Rge_dec minutes thr2); [ | assumption ].
    destruct (negb _); [ | assumption ].
    now apply incl_appl. }
  destruct (Rge_dec minutes thr1) as [Hlong | _]; [ | exact Hkeep ].
  destruct (isAtDestination lat1 lng1 first) eqn:Hat; cbn [negb];
    [ exact Hkeep | ].
  destruct (weaker first minutes Hlong Hat) as [Hlong2 Hat2].
  destruct (Rge_dec minutes thr2) as [_ | Hn]; [ | contradiction ].
  rewrite Hat2. cbn [negb].
  apply incl_app; [ now apply incl_appl | ].
  apply incl_appr, incl_refl.
Qed.

Lemma fold_incl (pairs : list (GpsRoutePoint * GpsRoutePoint)) :
  forall (found1 found2 : list UnscheduledStop)
         (start : option GpsRoutePoint) (points : list GpsRoutePoint),
    incl found1 found2 ->
    exists found1' found2' start' points',
      fold_left (visitPair lat1 lng1 thr1 meters) pairs
        (mkDetector found1 start points) =
        mkDetector found1' start' points' /\
      fold_left (visitPair lat2 lng2 thr2 meters) pairs
        (mkDetector found2 start points) =
        mkDetector found2' start' points' /\
      incl found1' found2'.
Proof.
  induction pairs as [ | [prev curr] pairs IH ];
    intros found1 found2 start points Hincl; cbn [fold_left].
  - now exists found1, found2, start, points.
  - unfold visitPair at 2 4. cbn [stops stopStart stopPoints].
    destruct (Rlt_dec _ meters).
    + destruct start as [first | ]; now apply IH.
    + apply IH. now apply closeRun_incl.
Qed.

Lemma detect_incl (gpsPoints : list GpsRoutePoint) :
  incl (closeRun lat1 lng1 thr1
          (fold_left (visitPair lat1 lng1 thr1 meters)
             (consecutivePairs gpsPoints) (mkDetector [] None [])))
       (closeRun lat2 lng2 thr2
          (fold_left (visitPair lat2 lng2 thr2 meters)
             (consecutivePairs gpsPoints) (mkDetector [] None []))).
Proof.
  destruct (fold_incl (consecutivePairs gpsPoints) [] [] None []
              (incl_refl _))
    as (found1 & found2 & start & points & -> & -> & Hincl).
  now apply closeRun_incl.
Qed.

End Simulation.

(** X14.  Passing a destination only removes stops: every stop reported
    with a destination is also reported without one. *)
Theorem detectUnscheduledStops_destination_only_removes
    (gpsPoints : list GpsRoutePoint) (destinationLat destinationLng : option R)
    (stopThresholdMinutes : option R) (stop : UnscheduledStop) :
  In stop (detectUnscheduledStops gpsPoints destinationLat destinationLng
             stopThresholdMinutes distanceThresholdMeters) ->
  In stop (detectUnscheduledStops gpsPoints None None
             stopThresholdMinutes distanceThresholdMeters).
Proof.
  rewrite !detect_as_fold. apply detect_incl.
  intros first minutes Hlong _. split; [ assumption | reflexivity ].
Qed.

(** X15.  Raising the stop threshold only removes stops: every stop
    reported with the larger threshold is reported with the smaller one. *)
Theorem detectUnscheduledStops_threshold_only_removes
    (gpsPoints : list GpsRoutePoint) (destinationLat destinationLng : option R)
    (lower higher : R) (stop : UnscheduledStop) :
  lower <= higher ->
  In stop (detectUnscheduledStops gpsPoints destinationLat destinationLng
             (Some higher) distanceThresholdMeters) ->
  In stop (detectUnscheduledStops gpsPoints destinationLat destinationLng
             (Some lower) distanceThresholdMeters).
Proof.
  intros Hle. rewrite !detect_as_fold. cbn [orDefault]. apply detect_incl.
  intros first minutes Hlong Hat. split; [ lra | assumption ].
Qed.

End DetectorComparison.

Section DetectorComparisonWitnesses.
Import JS RouteConfrontationMap Examples StopReport.
Local Open Scope R_scope.

Lemma dwellTrack_far_reported_at (stopThresholdMinutes : option R) :
  orDefault stopThresholdMinutes 10 <= 15 ->
  detectUnscheduledStops (dwellTrack 20) (Some farLat) (Some 20)
    stopThresholdMinutes None =
  [ stopAt (sample 100000 20 0) 15 ].
Proof.
  intros Hthr. unfold dwellTrack.
  rewrite <- (app_nil_r [ sample 100000 20 0; sample 100003 20 5;
                          sample 100001 20 10; sample 100002 20 15 ]).
  rewrite detect_single_run;
    [ | apply dwellTrack_stationary | now left ].
  rewrite isAtDestination_nonzero by (unfold farLat; lra).
  pose proof (dwellTrack_far_destination 20) as Hfar.
  cbn [last sample timestamp latitude longitude] in *. cbv zeta.
  change (15 * 60000 - 0 * 60000)%Z with 900000%Z.
  replace (900000 / 60000) with 15 by field.
  rewrite (Math_round_integer 15).
  destruct (Rge_dec 15 (orDefault stopThresholdMinutes 10)) as [_ | Hn];
    [ | lra ].
  destruct (Rlt_dec _ 200) as [Hlt | _]; [ lra | reflexivity ].
Qed.

Lemma detectUnscheduledStops_destination_only_removes_witness :
  let stop := stopAt (sample 100000 20 0) 15 in
  In stop (detectUnscheduledStops (dwellTrack 20) (Some farLat) (Some 20)
             None None) /\
  In stop (detectUnscheduledStops (dwellTrack 20) None None None None).
Proof.
  intros stop.
  assert (Hin : In stop (detectUnscheduledStops (dwellTrack 20)
                           (Some farLat) (Some 20) None None))
    by (rewrite dwellTrack_far_reported; now left).
  split; [ exact Hin | ].
  exact (detectUnscheduledStops_destination_only_removes None
           (dwellTrack 20) (Some farLat) (Some 20) None stop Hin).
Defined.

Lemma detectUnscheduledStops_threshold_only_removes_witness :
  let stop := stopAt (sample 100000 20 0) 15 in
  10 <= 15 /\
  In stop (detectUnscheduledStops (dwellTrack 20) (Some farLat) (Some 20)
             (Some 15) None) /\
  In stop (detectUnscheduledStops (dwellTrack 20) (Some farLat) (Some 20)
             (Some 10) None).
Proof.
  intros stop.
  assert (Hle : 10 <= 15) by lra.
  assert (Hin : In stop (detectUnscheduledStops (dwellTrack 20)
                           (Some farLat) (Some 20) (Some 15) None)).
  { rewrite dwellTrack_far_reported_at by (cbn; lra). now left. }
  split; [ exact Hle | ]. split; [ exact Hin | ].
  exact (detectUnscheduledStops_threshold_only_removes None
           (dwellTrack 20) (Some farLat) (Some 20) 10 15 stop Hle Hin).
Defined.

End DetectorComparisonWitnesses.

(** ** The total distance of a path *)

Section TotalDistance.
Import JS RouteCompliance Meridians.
Local Open Scope R_scope.

Local Abbreviation addDistance :=
  (fun (total : R) (seg : Coordinate * Coordinate) =>
     total + haversineDistance (fst seg) (snd seg)).

Lemma segments_cons (a b : Coordinate) (l : list Coordinate) :
  segments (a :: b :: l) = (a, b) :: segments (b :: l).
Proof. reflexivity. Qed.

Lemma segments_snoc (l : list Coordinate) (a b : Coordinate) :
  segments ((l ++ [a]) ++ [b]) = segments (l ++ [a]) ++ [(a, b)].
Proof.
  induction l as [ | x l IH ]; [ reflexivity | ].
  destruct l as [ | y l ]; [ reflexivity | ].
  change (((x :: y :: l) ++ [a]) ++ [b])
    with (x :: y :: (l ++ [a]) ++ [b]).
  change ((x :: y :: l) ++ [a]) with (x :: y :: l ++ [a]).
  rewrite !segments_cons.
  change (y :: (l ++ [a]) ++ [b]) with (((y :: l) ++ [a]) ++ [b]).
  now rewrite IH.
Qed.

(** The segments of the reversed path are the reversed segments, each
    turned round. *)
Lemma segments_rev (l : list Coordinate) :
  segments (rev l) = map (fun seg => (snd seg, fst seg)) (rev (segments l)).
Proof.
  induction l as [ | a l IH ]; [ reflexivity | ].
  destruct l as [ | b l ]; [ reflexivity | ].
  rewrite segments_cons. cbn [rev] in *.
  rewrite segments_snoc, IH, map_app. reflexivity.
Qed.

Lemma addDistance_turned (l : list (Coordinate * Coordinate)) :
  forall total,
    fold_left addDistance (map (fun seg => (snd seg, fst seg)) l) total =
    fold_left addDistance l total.
Proof.
  induction l as [ | [a b] l IH ]; intros total; cbn [map fold_left fst snd];
    [ reflexivity | ].
  now rewrite IH, (haversineDistance_sym b a).
Qed.

(** X16.  The total distance of a path driven backwards is the total
    distance of the path (in exact arithmetic). *)
Theorem calculateTotalDistance_rev (path : list Coordinate) :
  calculateTotalDistance (rev path) = calculateTotalDistance path.
Proof.
  unfold calculateTotalDistance. rewrite length_rev.
  destruct (length path <? 2)%nat; [ reflexivity | ].
  cbv zeta. f_equal. rewrite segments_rev, addDistance_turned.
  apply fold_left_permutation.
  - intros total x y. ring.
  - apply Permutation_sym, Permutation_rev.
Qed.








End TotalDistance.

Section TotalDistanceWitness.
Import JS RouteCompliance Meridians.
Local Open Scope R_scope.


End TotalDistanceWitness.

(** ** The end of a trip *)

Section TripEndFacts.
Import JS RouteCompliance TripEnd.
Local Open Scope R_scope.

(** X19.  The stored fuel efficiency does not depend on the trip: in exact
    arithmetic it is 12.5 whenever the end odometer is above the start
    odometer, and 0 otherwise; the fuel used is 8 percent of the distance. *)
Theorem tripFigures_fuelEfficiency (tripStartOdometer : option R)
    (endOdometer : R) :
  let figures := tripFigures tripStartOdometer endOdometer in
  fuelUsed figures = distanceTravelled figures * (8 / 100) /\
  (0 < distanceTravelled figures -> fuelEfficiency figures = 25 / 2) /\
  (distanceTravelled figures <= 0 -> fuelEfficiency figures = 0).
Proof.
  unfold tripFigures. cbv zeta.
  cbn [fuelUsed distanceTravelled fuelEfficiency].
  set (distance := endOdometer - _).
  split; [ reflexivity | ]. split; intros Hd.
  - destruct (Rgt_dec (distance * (8 / 100)) 0) as [_ | Hn]; [ | lra ].
    field. lra.
  - destruct (Rgt_dec (distance * (8 / 100)) 0) as [Hp | _];
      [ lra | reflexivity ].
Qed.

Lemma tripFigures_fuelEfficiency_witness :
  0 < distanceTravelled (tripFigures (Some 12000) 12345) /\
  fuelEfficiency (tripFigures (Some 12000) 12345) = 25 / 2 /\
  distanceTravelled (tripFigures None 0) <= 0 /\
  fuelEfficiency (tripFigures None 0) = 0.
Proof.
  assert (Hstart : truthy (Some 12000) = true)
    by (apply truthy_nonzero; lra).
  assert (Hpos : 0 < distanceTravelled (tripFigures (Some 12000) 12345)).
  { unfold tripFigures. rewrite Hstart.
    cbn [distanceTravelled nonNull orDefault]. lra. }
  assert (Hzero : distanceTravelled (tripFigures None 0) <= 0).
  { unfold tripFigures. cbn [truthy distanceTravelled]. lra. }
  split; [ exact Hpos | ].
  split; [ exact (proj1 (proj2
             (tripFigures_fuelEfficiency (Some 12000) 12345)) Hpos) | ].
  split; [ exact Hzero | ].
  exact (proj2 (proj2 (tripFigures_fuelEfficiency None 0)) Hzero).
Defined.

(** An event is used for the path when both its coordinates are truthy. *)
Lemma actualPathOf_app (events1 events2 : list TripEvent) :
  actualPathOf (events1 ++ events2) =
  actualPathOf events1 ++ actualPathOf events2.
Proof. unfold actualPathOf. now rewrite filter_app, map_app. Qed.

(** X20.  An event without a latitude or without a longitude, or with one
    of them equal to 0, does not influence the compliance stored with the
    trip, wherever it stands among the events. *)
Theorem routeComplianceAtEnd_ignores_unlocated (job : option Job)
    (before after : list TripEvent) (event : TripEvent) :
  truthy (eventLatitude event) = false \/
  truthy (eventLongitude event) = false ->
  routeComplianceAtEnd job (before ++ event :: after) =
  routeComplianceAtEnd job (before ++ after).
Proof.
  intros Hunlocated.
  assert (Hpath : actualPathOf (before ++ event :: after) =
                  actualPathOf (before ++ after)).
  { rewrite !actualPathOf_app. f_equal. unfold actualPathOf.
    cbn [filter].
    destruct Hunlocated as [-> | ->]; [ reflexivity | ].
    now rewrite andb_false_r. }
  unfold routeComplianceAtEnd. now rewrite Hpath.
Qed.

Lemma routeComplianceAtEnd_ignores_unlocated_witness :
  let job := Some (mkJob (Some 10) (Some 20) (Some 12) (Some 24)) in
  let located := mkTripEvent (Some 11) (Some 22) in
  let unlocated := mkTripEvent None (Some 22) in
  truthy (eventLatitude unlocated) = false /\
  routeComplianceAtEnd job ([located] ++ unlocated :: [located]) =
  routeComplianceAtEnd job ([located] ++ [located]).
Proof.
  intros job located unlocated.
  assert (Hnone : truthy (eventLatitude unlocated) = false) by reflexivity.
  split; [ exact Hnone | ].
  exact (routeComplianceAtEnd_ignores_unlocated job [located] [located]
           unlocated (or_introl Hnone)).
Defined.

(** X21.  The compliance stored with a trip always lies between 0 and 100.
    It is the default, 100 percent with deviations 0, when the trip has no
    job, when one of the job's four coordinates is missing or 0, and when no
    event has two truthy coordinates. *)
Theorem routeComplianceAtEnd_default (job : option Job)
    (events : list TripEvent) :
  0 <= compliancePercent (routeComplianceAtEnd job events) <= 100 /\
  ((job = None \/
    (exists j, job = Some j /\
       (truthy (pickupLat j) = false \/ truthy (pickupLng j) = false \/
        truthy (deliveryLat j) = false \/ truthy (deliveryLng j) = false)) \/
    actualPathOf events = []) ->
   routeComplianceAtEnd job events =
   {| compliancePercent := 100;
      maxDeviation := Finite 0;
      averageDeviation := Finite 0 |}).
Proof.
  split.
  - unfold routeComplianceAtEnd. cbv zeta.
    destruct job as [j | ]; [ | cbn; lra ].
    destruct (_ && _); [ | cbn; lra ].
    apply compliancePercent_range.
  - unfold routeComplianceAtEnd. cbv zeta.
    intros [-> | [(j & -> & Hmissing) | Hempty]]; [ reflexivity | | ].
    + destruct Hmissing as [-> | [-> | [-> | ->]]];
        rewrite ?andb_false_r; reflexivity.
    + rewrite Hempty. destruct job as [j | ]; [ | reflexivity ].
      cbn [length Nat.ltb Nat.leb]. now rewrite andb_false_r.
Qed.

Lemma routeComplianceAtEnd_default_witness :
  let job := Some (mkJob (Some 10) (Some 0) (Some 12) (Some 24)) in
  let events := [ mkTripEvent (Some 30) (Some 40) ] in
  truthy (pickupLng (mkJob (Some 10) (Some 0) (Some 12) (Some 24))) = false /\
  routeComplianceAtEnd job events =
  {| compliancePercent := 100;
     maxDeviation := Finite 0;
     averageDeviation := Finite 0 |}.
Proof.
  intros job events.
  assert (Hzero : truthy (pickupLng (mkJob (Some 10) (Some 0) (Some 12)
                                       (Some 24))) = false)
    by apply truthy_zero.
  split; [ exact Hzero | ].
  apply (proj2 (routeComplianceAtEnd_default job events)).
  right. left. exists (mkJob (Some 10) (Some 0) (Some 12) (Some 24)).
  split; [ reflexivity | ]. right. left. exact Hzero.
Defined.

End TripEndFacts.

(** ** What the route view shows *)

Section RouteViewFacts.
Import JS RouteCompliance RouteConfrontationMap TripEnd RouteView.
Local Open Scope R_scope.

(** X22.  The planned route is drawn only for a job whose four coordinates
    are truthy; it then has 21 waypoints, waypoint [i] being
    [pickup + (i / 20) * (delivery - pickup)].  In exact arithmetic the
    first waypoint is the pickup and the last is the delivery.  (Over the
    reals: in binary64 the last waypoint can differ from the delivery by a
    rounding error.) *)
Theorem plannedRoute_shape (job : option Job) :
  (hasPlannedRoute job = false -> plannedRoute job = []) /\
  (forall j, job = Some j -> hasPlannedRoute job = true ->
     length (plannedRoute job) = 21%nat /\
     (forall i : Z, (0 <= i <= 20)%Z ->
        nth_error (plannedRoute job) (Z.to_nat i) =
          Some (nonNull (pickupLat j) +
                  IZR i / 20 * (nonNull (deliveryLat j) - nonNull (pickupLat j)),
                nonNull (pickupLng j) +
                  IZR i / 20 *
                    (nonNull (deliveryLng j) - nonNull (pickupLng j)))) /\
     nth_error (plannedRoute job) 0 =
       Some (nonNull (pickupLat j), nonNull (pickupLng j)) /\
     nth_error (plannedRoute job) 20 =
       Some (nonNull (deliveryLat j), nonNull (deliveryLng j))).
Proof.
  split.
  - intros Hno. unfold plannedRoute. rewrite Hno. now destruct job.
  - intros j -> Hplanned.
    assert (Hroute : plannedRoute (Some j) =
              map (fun p => (lat p, lng p))
                (interpolateRoute
                   {| lat := nonNull (pickupLat j);
                      lng := nonNull (pickupLng j) |}
                   {| lat := nonNull (deliveryLat j);
                      lng := nonNull (deliveryLng j) |} (Some 20%Z))).
    { unfold plannedRoute. rewrite Hplanned.
      unfold interpolatePlannedRoute, interpolateRoute. cbn [orDefault].
      now rewrite map_map. }
    split; [ | split; [ | split ] ].
    + now rewrite Hroute, length_map, interpolateRoute_length.
    + intros i Hi.
      rewrite Hroute, nth_error_map, interpolateRoute_nth by exact Hi.
      reflexivity.
    + rewrite Hroute, nth_error_map, interpolateRoute_first by lia.
      reflexivity.
    + rewrite Hroute, nth_error_map.
      change 20%nat with (Z.to_nat 20).
      rewrite interpolateRoute_last by lia. reflexivity.
Qed.

Lemma plannedRoute_shape_witness :
  let job := Some (mkJob (Some 10) (Some 20) (Some 12) (Some 24)) in
  hasPlannedRoute job = true /\
  length (plannedRoute job) = 21%nat /\
  nth_error (plannedRoute job) 5 =
    Some (10 + 5 / 20 * (12 - 10), 20 + 5 / 20 * (24 - 20)) /\
  nth_error (plannedRoute job) 0 = Some (10, 20) /\
  nth_error (plannedRoute job) 20 = Some (12, 24).
Proof.
  intros job.
  assert (Hplanned : hasPlannedRoute job = true).
  { unfold job, hasPlannedRoute. cbn [pickupLat pickupLng deliveryLat
      deliveryLng]. now rewrite !truthy_nonzero by lra. }
  assert (H5 : (0 <= 5 <= 20)%Z) by lia.
  split; [ exact Hplanned | ].
  destruct (proj2 (plannedRoute_shape job)
              (mkJob (Some 10) (Some 20) (Some 12) (Some 24))
              eq_refl Hplanned) as (Hlen & Hnth & Hfirst & Hlast).
  split; [ exact Hlen | ]. split; [ exact (Hnth 5%Z H5) | ].
  split; [ exact Hfirst | exact Hlast ].
Defined.

(** X23.  The stops the view lists, found with the job's delivery as the
    destination and the default thresholds: each is at a GPS sample and
    lasted at least 10 minutes, and when the delivery has two non-zero
    coordinates none of them is less than 200 m from it. *)
Theorem unscheduledStops_shown (job : option Job)
    (gpsPoints : list GpsRoutePoint) (stop : UnscheduledStop) :
  In stop (unscheduledStops job gpsPoints) ->
  10 <= duration stop /\
  (exists sample, In sample gpsPoints /\
     stopLatitude stop = latitude sample /\
     stopLongitude stop = longitude sample /\
     startTime stop = timestamp sample) /\
  (forall j dLat dLng,
     job = Some j ->
     deliveryLat j = Some dLat -> deliveryLng j = Some dLng ->
     dLat <> 0 -> dLng <> 0 ->
     200 <= calculateDistance (stopLatitude stop) (stopLongitude stop)
              dLat dLng).
Proof.
  unfold unscheduledStops. intros Hin.
  pose proof (detect_reports
                (match job with Some j => deliveryLat j | None => None end)
                (match job with Some j => deliveryLng j | None => None end)
                None None gpsPoints) as Hall.
  rewrite Forall_forall in Hall.
  destruct (Hall stop Hin) as (first & lastOfRun & Hf & _ & Hlong & Hat & ->).
  cbn [orDefault Examples.stopAt duration stopLatitude stopLongitude
       startTime] in *.
  split; [ | split ].
  - rewrite <- (Math_round_integer 10). apply Math_round_le. lra.
  - exists first. repeat split; assumption || reflexivity.
  - intros j dLat dLng -> HdLat HdLng Hlat Hlng.
    rewrite HdLat, HdLng, isAtDestination_nonzero in Hat by assumption.
    destruct (Rlt_dec _ 200) as [_ | Hfar]; [ discriminate Hat | lra ].
Qed.

Lemma unscheduledStops_shown_witness :
  let job := Some (mkJob (Some 10) (Some 20) (Some Examples.farLat)
                     (Some 20)) in
  let stop := Examples.stopAt (Examples.sample 100000 20 0) 15 in
  In stop (unscheduledStops job (Examples.dwellTrack 20)) /\
  10 <= duration stop /\
  200 <= calculateDistance (stopLatitude stop) (stopLongitude stop)
           Examples.farLat 20.
Proof.
  intros job stop.
  assert (Hin : In stop (unscheduledStops job (Examples.dwellTrack 20))).
  { unfold unscheduledStops, job. cbn [deliveryLat deliveryLng].
    rewrite dwellTrack_far_reported. now left. }
  assert (Hlat : Examples.farLat <> 0) by (unfold Examples.farLat; lra).
  assert (Hlng : 20 <> 0) by lra.
  split; [ exact Hin | ].
  destruct (unscheduledStops_shown job (Examples.dwellTrack 20) stop Hin)
    as (Hduration & _ & Hfar).
  split; [ exact Hduration | ].
  exact (Hfar _ Examples.farLat 20 eq_refl eq_refl eq_refl Hlat Hlng).
Defined.

End RouteViewFacts.

Section RouteViewBadge.
Import JS RouteCompliance RouteConfrontationMap TripEnd RouteView.
Local Open Scope R_scope.



End RouteViewBadge.
